(** * SHL assessment recommender: the recommendation pipeline of [app.py]

    A shallow embedding of [scrape_shl_catalog] and of the [/recommend]
    handler [recommend_assessments], with the properties of the
    pipeline stated over it.

    Conventions of the embedding.
    - A Python [str] is a [string]; a character is a code point below 256.
      In that range [\d] is exactly ['0'..'9'] and [str.isspace] and the
      regular expression class [\s] agree.
    - A Python [int] is a [Z]; [Optional[int]] is [option Z].
    - Similarity scores are rationals ([Q]); the comparisons [==] and [<]
      on them are the numeric ones.  Rounding and NaN are not modelled.
    - Exceptions are values of [exn]; code that can raise lives in the
      monad [M], whose state counts the HTTP GETs issued so far.
    - BeautifulSoup, the sentence encoder and the remote site are the
      environment: they are parameters of the model. *)

From Stdlib Require Import List String Ascii Bool Arith ZArith QArith Lia.
From Stdlib Require Import Permutation Sorted DecimalString Lqa.
Import ListNotations.

Close Scope Q_scope.
Local Open Scope string_scope.
Local Open Scope list_scope.
Local Open Scope nat_scope.

(** ** Python strings *)

Module PyStr.

(** [str.isspace] on one character (also the class [\s] of [re]). *)
Definition isspace (c : ascii) : bool :=
  let n := nat_of_ascii c in
  ((9 <=? n) && (n <=? 13)) || ((28 <=? n) && (n <=? 32))
  || (n =? 133) || (n =? 160).

(** The class [\d] of [re]. *)
Definition isdigit (c : ascii) : bool :=
  let n := nat_of_ascii c in (48 <=? n) && (n <=? 57).

Fixpoint lstrip (s : string) : string :=
  match s with
  | EmptyString => EmptyString
  | String c r => if isspace c then lstrip r else s
  end.

Fixpoint rstrip (s : string) : string :=
  match s with
  | EmptyString => EmptyString
  | String c r =>
      match rstrip r with
      | EmptyString => if isspace c then EmptyString else String c EmptyString
      | r' => String c r'
      end
  end.

(** [s.strip()] *)
Definition strip (s : string) : string := rstrip (lstrip s).

(** Truthiness of a string: [if s]. *)
Definition truthy (s : string) : bool :=
  match s with EmptyString => false | _ => true end.

(** [s.startswith(p)] *)
Definition startswith (s p : string) : bool := String.prefix p s.

(** [c.lower()] for a code point below 256. *)
Definition lower_char (c : ascii) : ascii :=
  let n := nat_of_ascii c in
  if ((65 <=? n) && (n <=? 90))
     || ((192 <=? n) && (n <=? 222) && negb (n =? 215))
  then ascii_of_nat (n + 32) else c.

Fixpoint lower (s : string) : string :=
  match s with
  | EmptyString => EmptyString
  | String c r => String (lower_char c) (lower r)
  end.

(** [k in s] *)
Fixpoint contains (k s : string) : bool :=
  String.prefix k s
  || match s with
     | EmptyString => false
     | String _ r => contains k r
     end.

(** The longest prefix of characters satisfying [p], and the rest. *)
Fixpoint span (p : ascii -> bool) (s : string) : string * string :=
  match s with
  | EmptyString => (EmptyString, EmptyString)
  | String c r =>
      if p c then let (a, b) := span p r in (String c a, b)
      else (EmptyString, s)
  end.

(** [re.search(r'\d+', s)]: the group of the leftmost match, if any. *)
Fixpoint search_digits (s : string) : option string :=
  match s with
  | EmptyString => None
  | String c r => if isdigit c then Some (fst (span isdigit s))
                  else search_digits r
  end.

Definition digit_value (c : ascii) : Z := Z.of_nat (nat_of_ascii c - 48).

Fixpoint int_acc (acc : Z) (s : string) : Z :=
  match s with
  | EmptyString => acc
  | String c r => int_acc (10 * acc + digit_value c)%Z r
  end.

(** [int(s)] for a string of decimal digits. *)
Definition int (s : string) : Z := int_acc 0 s.

(** [str(n)] for an [int]. *)
Definition str (n : Z) : string := NilZero.string_of_int (Z.to_int n).

(** A match of [(?:minutes?|mins?)] at the start of [s], ignoring case:
    the number of characters it takes. *)
Definition match_unit (s : string) : option nat :=
  let l := lower s in
  if String.prefix "minutes" l then Some 7
  else if String.prefix "minute" l then Some 6
  else if String.prefix "mins" l then Some 4
  else if String.prefix "min" l then Some 3
  else None.

(** A match of [\d+\s*(?:minutes?|mins?)] anchored at the start of [s]. *)
Definition match_duration_at (s : string) : option string :=
  let (ds, r1) := span isdigit s in
  match ds with
  | EmptyString => None
  | _ =>
      let (ws, r2) := span isspace r1 in
      match match_unit r2 with
      | Some n => Some (ds ++ ws ++ String.substring 0 n r2)%string
      | None => None
      end
  end.

(** [re.search(r'\d+\s*(?:minutes?|mins?)', s, re.IGNORECASE)]:
    the text of the leftmost match. *)
Fixpoint search_duration (s : string) : option string :=
  match match_duration_at s with
  | Some m => Some m
  | None => match s with
            | EmptyString => None
            | String _ r => search_duration r
            end
  end.

End PyStr.

(** ** Data model *)

(** [class Assessment(BaseModel)] *)
Record Assessment := mkAssessment {
  name : string;
  url : string;
  remote_testing : bool;
  adaptive_support : bool;
  duration : string;
  test_type : string
}.

(** [class QueryRequest(BaseModel)] *)
Record QueryRequest := mkQueryRequest {
  text : string;
  max_results : option Z;
  max_duration : option Z
}.

(** [class RecommendationResponse(BaseModel)] *)
Record RecommendationResponse := mkResponse {
  recommendations : list Assessment
}.

(** [a == b] on two assessments: pydantic compares the fields. *)
Definition assessment_eqb (a b : Assessment) : bool :=
  String.eqb (name a) (name b) && String.eqb (url a) (url b)
  && Bool.eqb (remote_testing a) (remote_testing b)
  && Bool.eqb (adaptive_support a) (adaptive_support b)
  && String.eqb (duration a) (duration b)
  && String.eqb (test_type a) (test_type b).

(** ** Exceptions and the request monad *)

Inductive exn :=
| Timeout (msg : string)            (* requests.Timeout *)
| RequestException (msg : string)   (* any other requests.RequestException *)
| ValueError (msg : string)
| TypeError (msg : string)
| OtherException (msg : string)     (* any other Exception *)
| HTTPException (status_code : Z) (detail : string).

(** [str(e)] *)
Definition str_exn (e : exn) : string :=
  match e with
  | Timeout m | RequestException m | ValueError m
  | TypeError m | OtherException m => m
  | HTTPException c d => (PyStr.str c ++ ": " ++ d)%string
  end.

(** A computation that may raise; the state is the number of GETs sent. *)
Definition M (A : Type) : Type := nat -> (exn + A) * nat.

Definition ret {A} (a : A) : M A := fun w => (inr a, w).
Definition raise {A} (e : exn) : M A := fun w => (inl e, w).
Definition bind {A B} (m : M A) (k : A -> M B) : M B :=
  fun w => match m w with
           | (inr a, w') => k a w'
           | (inl e, w') => (inl e, w')
           end.
(** [try: m except Exception as e: h e] *)
Definition try_except {A} (m : M A) (h : exn -> M A) : M A :=
  fun w => match m w with
           | (inr a, w') => (inr a, w')
           | (inl e, w') => h e w'
           end.
(** Lifting of a pure computation that may raise. *)
Definition lift {A} (r : exn + A) : M A := fun w => (r, w).

Notation "x <- m ;; k" := (bind m (fun x => k))
  (at level 61, m at next level, right associativity).

(** ** The environment: parsed pages *)

(** What the extractor reads from one section of the page. *)
Record Tag := mkTag {
  (* [section.find(['h3', 'h2', '.assessment-title'])]: its [.text] *)
  name_elem : option string;
  (* [section.find('a')]: its [href] attribute, when it has one *)
  url_elem : option (option string);
  (* [section.find(['p', '.assessment-description'])]: its [.text] *)
  desc_elem : option string
}.

(** What the extractor reads from the parsed page. *)
Record Soup := mkSoup {
  (* [soup.find_all(...)] for entry [i] of [selector_patterns] *)
  find_all_pattern : nat -> list Tag;
  (* [soup.find_all(...)] for the general keyword search *)
  find_all_general : list Tag
}.

Definition base_url : string := "https://www.shl.com".
Definition max_retries : nat := 3.

(** The [for pattern in selector_patterns] loop: the sections of the first
    pattern that matches anything. *)
Fixpoint first_matching_pattern (soup : Soup) (patterns : list nat)
  : list Tag :=
  match patterns with
  | [] => []
  | pattern :: rest =>
      match find_all_pattern soup pattern with
      | [] => first_matching_pattern soup rest
      | sections => sections
      end
  end.

Definition find_assessment_sections (soup : Soup) : exn + list Tag :=
  match first_matching_pattern soup [0; 1; 2] with
  | [] =>
      match find_all_general soup with
      | [] => inl (ValueError "No assessment sections found on the page. The page structure might have changed.")
      | sections => inr sections
      end
  | sections => inr sections
  end.

(** [any(keyword in description.lower() or keyword in name.lower()
         for keyword in keywords)] *)
Definition any_keyword (keywords : list string) (description nm : string)
  : bool :=
  existsb (fun keyword =>
             PyStr.contains keyword (PyStr.lower description)
             || PyStr.contains keyword (PyStr.lower nm)) keywords.

Definition section_name (section : Tag) : string :=
  match name_elem section with
  | Some t => PyStr.strip t
  | None => ""
  end.

Definition section_url (section : Tag) : string :=
  match url_elem section with
  | Some (Some href) =>
      if PyStr.startswith href "/" then (base_url ++ href)%string
      else if PyStr.startswith href "http" then href
      else (base_url ++ "/" ++ href)%string
  | _ => ""
  end.

Definition section_description (section : Tag) : string :=
  match desc_elem section with
  | Some t => PyStr.strip t
  | None => ""
  end.

Definition section_duration (description : string) : string :=
  match PyStr.search_duration description with
  | Some m => m
  | None => "Not specified"
  end.

Definition section_test_type (description nm : string) : string :=
  if any_keyword ["cognitive"; "ability"; "aptitude"] description nm
  then "Cognitive"
  else if any_keyword ["personality"; "behavior"; "style"] description nm
  then "Personality"
  else if any_keyword ["skill"; "proficiency"; "knowledge"] description nm
  then "Skills"
  else "General".

(** The body of [for section in assessment_sections]: the record appended
    for this section, if one is. *)
Definition extract_section (section : Tag) : option Assessment :=
  let nm := section_name section in
  let u := section_url section in
  let description := section_description section in
  if PyStr.truthy nm && PyStr.truthy u
  then Some (mkAssessment nm u true false
               (section_duration description)
               (section_test_type description nm))
  else None.

Fixpoint extract_sections (sections : list Tag) : list Assessment :=
  match sections with
  | [] => []
  | section :: rest =>
      match extract_section section with
      | Some a => a :: extract_sections rest
      | None => extract_sections rest
      end
  end.

(** Everything of one attempt that follows the download. *)
Definition parse_catalog (soup : Soup) : exn + list Assessment :=
  match find_assessment_sections soup with
  | inl e => inl e
  | inr sections =>
      match extract_sections sections with
      | [] => inl (ValueError "No valid assessments could be extracted from the page.")
      | assessments => inr assessments
      end
  end.

(** The [except] clauses of one attempt, in their order; [next] is the rest
    of the loop, entered when a clause ends without raising. *)
Definition handle_attempt_error {A} (attempt : nat) (next : M A) (e : exn)
  : M A :=
  match e with
  | Timeout _ =>
      if attempt =? max_retries - 1
      then raise (HTTPException 503
             "Failed to fetch assessments: Connection timeout. Please try again later.")
      else next
  | RequestException m =>
      if attempt =? max_retries - 1
      then raise (HTTPException 503
             ("Failed to fetch assessments: Network error - " ++ m)%string)
      else next
  | ValueError m =>
      raise (HTTPException 500 ("Failed to parse assessments: " ++ m)%string)
  | _ =>
      raise (HTTPException 500
               ("Unexpected error while fetching assessments: "
                  ++ str_exn e)%string)
  end.

(** ** Ranking: [list.sort(reverse=True)] on [(similarity, assessment)] *)

(** A ranked candidate: the tuple [(similarity, assessment)]. *)
Abbreviation Candidate := (Q * Assessment)%type.

(** [x < y] on scores. *)
Definition Qlt_bool (x y : Q) : bool := negb (Qle_bool y x).

Definition no_lt_msg : string :=
  "'<' not supported between instances of 'Assessment' and 'Assessment'".

(** [x < y] on two tuples: the first components decide unless they are
    equal; then the second components are compared with [==] and, when
    they differ, with [<], which [Assessment] does not define. *)
Definition tuple_lt (x y : Candidate) : exn + bool :=
  if Qeq_bool (fst x) (fst y) then
    if assessment_eqb (snd x) (snd y) then inr false
    else inl (TypeError no_lt_msg)
  else inr (Qlt_bool (fst x) (fst y)).

(** [list.sort] is a stable sort that uses only [<] between items and
    fails as soon as a comparison raises.  It is modelled as an insertion
    sort.  The order in which the library compares items is not modelled,
    and need not be: the result of a stable sort is unique, and a sort
    that is right on every order has to compare two tied items whose
    records differ whenever there are such items (it could not tell
    otherwise which of the two goes first), so the sort returns or raises
    on the same inputs whatever the algorithm.  [insert] places [pivot]
    before the first item it is less than. *)
Fixpoint insert (pivot : Candidate) (sorted : list Candidate)
  : exn + list Candidate :=
  match sorted with
  | [] => inr [pivot]
  | y :: ys =>
      match tuple_lt pivot y with
      | inl e => inl e
      | inr true => inr (pivot :: y :: ys)
      | inr false =>
          match insert pivot ys with
          | inl e => inl e
          | inr r => inr (y :: r)
          end
      end
  end.

Fixpoint sort_from (sorted todo : list Candidate) : exn + list Candidate :=
  match todo with
  | [] => inr sorted
  | pivot :: rest =>
      match insert pivot sorted with
      | inl e => inl e
      | inr sorted' => sort_from sorted' rest
      end
  end.

(** [l.sort()] *)
Definition list_sort (l : list Candidate) : exn + list Candidate :=
  sort_from [] l.

(** [l.sort(reverse=True)]: the list is reversed, sorted and reversed
    again, which keeps the sort stable. *)
Definition list_sort_reverse (l : list Candidate) : exn + list Candidate :=
  match list_sort (rev l) with
  | inl e => inl e
  | inr s => inr (rev s)
  end.

(** ** Filtering and truncation *)

(** The relevance floor of [if sim < 0.1]. *)
Definition threshold : Q := (1 # 10)%Q.

(** [if request.max_duration:] the value when it is given and not zero. *)
Definition duration_constraint (max_duration : option Z) : option Z :=
  match max_duration with
  | Some m => if (m =? 0)%Z then None else Some m
  | None => None
  end.

(** [re.search(r'\d+', assessment.duration)] and [int(match.group())]. *)
Definition duration_value (a : Assessment) : option Z :=
  match PyStr.search_digits (duration a) with
  | Some g => Some (PyStr.int g)
  | None => None
  end.

(** The loop [for sim, assessment in ranked_assessments]. *)
Fixpoint filter_assessments (max_duration : option Z)
    (ranked_assessments : list Candidate) : list Assessment :=
  match ranked_assessments with
  | [] => []
  | (sim, assessment) :: rest =>
      if Qlt_bool sim threshold
      then filter_assessments max_duration rest
      else
        match duration_constraint max_duration with
        | Some m =>
            match duration_value assessment with
            | Some d =>
                if (d <=? m)%Z
                then assessment :: filter_assessments max_duration rest
                else filter_assessments max_duration rest
            | None => assessment :: filter_assessments max_duration rest
            end
        | None => assessment :: filter_assessments max_duration rest
        end
  end.

(** [l[:stop]] *)
Definition slice_to {A} (l : list A) (stop : option Z) : list A :=
  match stop with
  | None => l
  | Some k =>
      if (0 <=? k)%Z then firstn (Z.to_nat k) l
      else firstn (List.length l - Z.to_nat (- k)) l
  end.

Definition duration_message (m : Z) : string :=
  ("No assessments found matching the duration criteria of "
     ++ PyStr.str m ++ " minutes")%string.

Definition no_relevant_message : string :=
  "No relevant assessments found for your query. Please try with different keywords.".

(** [f"{a.name} {a.test_type} assessment. Duration: {a.duration}"] *)
Definition embedding_text (a : Assessment) : string :=
  (name a ++ " " ++ test_type a ++ " assessment. Duration: " ++ duration a)%string.

(** ** The pipeline *)

Section Pipeline.

(** The remote site and the parser: what the [n]-th GET of the catalogue
    page gives, an exception raised by the request or the parsed page. *)
Variable net : nat -> exn + Soup.

(** The sentence encoder [model.encode] and the cosine of two vectors. *)
Variable Vec : Type.
Variable encode : list string -> exn + list Vec.
Variable cosine : Vec -> Vec -> Q.

(** [session.get(...)], [raise_for_status()] and [BeautifulSoup(...)]. *)
Definition session_get : M Soup := fun w => (net w, S w).

(** The [try] block of one attempt. *)
Definition attempt_body : M (list Assessment) :=
  soup <- session_get ;; lift (parse_catalog soup).

(** The loop [for attempt in range(max_retries)]; the result is [None]
    when the loop ends without returning. *)
Fixpoint scrape_attempts (attempts : list nat)
  : M (option (list Assessment)) :=
  match attempts with
  | [] => ret None
  | attempt :: rest =>
      try_except (assessments <- attempt_body ;; ret (Some assessments))
        (handle_attempt_error attempt (scrape_attempts rest))
  end.

Definition scrape_shl_catalog : M (option (list Assessment)) :=
  scrape_attempts (seq 0 max_retries).

(** [model.encode([query])[0]] *)
Definition process_query (query : string) : exn + Vec :=
  match encode [query] with
  | inl e => inl e
  | inr (v :: _) => inr v
  | inr [] => inl (OtherException "index 0 is out of bounds for axis 0 with size 0")
  end.

Definition get_assessment_embeddings (assessments : list Assessment)
  : exn + list Vec :=
  encode (map embedding_text assessments).

(** [cosine_similarity([query_embedding], assessment_embeddings)[0]] *)
Definition cosine_similarity (query_embedding : Vec)
    (assessment_embeddings : list Vec) : list Q :=
  map (cosine query_embedding) assessment_embeddings.

(** The ranking step: [list(zip(similarities, assessments))], sorted. *)
Definition rank (similarities : list Q) (assessments : list Assessment)
  : exn + list Candidate :=
  list_sort_reverse (combine similarities assessments).

(** The body of the outer [try] of [recommend_assessments]. *)
Definition recommend_body (request : QueryRequest)
  : M RecommendationResponse :=
  if negb (PyStr.truthy (PyStr.strip (text request)))
  then raise (HTTPException 400 "Query text cannot be empty")
  else
    scraped <- scrape_shl_catalog ;;
    match scraped with
    | None | Some [] =>
        raise (HTTPException 500
                 "Failed to fetch assessments from catalog. Please try again later.")
    | Some assessments =>
        query_embedding <-
          try_except (lift (process_query (text request)))
            (fun e => raise (HTTPException 500
                               ("Error processing query: " ++ str_exn e)%string)) ;;
        assessment_embeddings <-
          try_except (lift (get_assessment_embeddings assessments))
            (fun e => raise (HTTPException 500
                               ("Error generating assessment embeddings: "
                                  ++ str_exn e)%string)) ;;
        let similarities :=
          cosine_similarity query_embedding assessment_embeddings in
        ranked_assessments <- lift (rank similarities assessments) ;;
        match filter_assessments (max_duration request) ranked_assessments with
        | [] =>
            match duration_constraint (max_duration request) with
            | Some m => raise (HTTPException 404 (duration_message m))
            | None => raise (HTTPException 404 no_relevant_message)
            end
        | filtered_assessments =>
            ret (mkResponse
                   (slice_to filtered_assessments (max_results request)))
        end
    end.

(** [recommend_assessments]: an [HTTPException] passes through, any other
    exception becomes a 500. *)
Definition recommend_assessments (request : QueryRequest)
  : M RecommendationResponse :=
  try_except (recommend_body request)
    (fun e =>
       match e with
       | HTTPException c d => raise (HTTPException c d)
       | _ => raise (HTTPException 500
                       ("An unexpected error occurred: " ++ str_exn e)%string)
       end).

End Pipeline.

(** ** The form of [streamlit_app.py] and the endpoint it posts to *)

(** The JSON body the form posts: [{"text": ..., "max_duration": ...}]. *)
Record Payload := mkPayload {
  payload_text : string;
  payload_max_duration : Z
}.

(** The decoded body of a response: the recommendations of a success, or
    the detail of an [HTTPException]. *)
Inductive Body :=
| Recommendations (rows : list Assessment)
| Detail (detail : string).

Record HttpResponse := mkHttpResponse {
  response_status : Z;
  response_body : Body
}.

(** [response.json().get('recommendations', [])] *)
Definition get_recommendations (b : Body) : list Assessment :=
  match b with
  | Recommendations rows => rows
  | Detail _ => []
  end.

(** What the form draws after a click. *)
Inductive Widget :=
| st_subheader (s : string)
| st_dataframe (rows : list Assessment)
| st_warning (s : string)
| st_error (s : string)
(* [st.error(f"Error: {response.text}")]: the box shows the body of the
   response as it was received *)
| st_error_response (response : HttpResponse).

Definition no_match_warning : string :=
  "No matching assessments found. Try adjusting your query or duration filter.".

(** The body of [if st.button("Get Recommendations", ...)]; [post] is
    [requests.post] to the endpoint. *)
Definition on_submit (post : Payload -> exn + HttpResponse)
    (query : string) (max_duration : Z) : list Widget :=
  if PyStr.truthy query then
    match post (mkPayload query max_duration) with
    | inl e =>
        [st_error ("Failed to get recommendations: " ++ str_exn e)%string]
    | inr response =>
        if (response_status response =? 200)%Z then
          match get_recommendations (response_body response) with
          | [] => [st_warning no_match_warning]
          | rows => [st_subheader "Recommended Assessments"; st_dataframe rows]
          end
        else [st_error_response response]
    end
  else [st_warning "Please enter a job description or requirements."].

Section Endpoint.

Variable net : nat -> exn + Soup.
Variable Vec : Type.
Variable encode : list string -> exn + list Vec.
Variable cosine : Vec -> Vec -> Q.

(** [@app.post("/recommend", response_model=RecommendationResponse)]: the
    posted body becomes a [QueryRequest], in which [max_results] takes its
    default; what the handler returns is a 200, an [HTTPException] it
    raises is a response with its status and detail. *)
Definition endpoint (p : Payload) (g : nat) : HttpResponse * nat :=
  match recommend_assessments net Vec encode cosine
          (mkQueryRequest (payload_text p) (Some 10%Z)
             (Some (payload_max_duration p))) g with
  | (inr r, g') =>
      (mkHttpResponse 200 (Recommendations (recommendations r)), g')
  | (inl (HTTPException c d), g') => (mkHttpResponse c (Detail d), g')
  | (inl _, g') => (mkHttpResponse 500 (Detail "Internal Server Error"), g')
  end.

(** The form in front of the endpoint, on a connection that works. *)
Definition form (g : nat) (query : string) (max_duration : Z)
  : list Widget :=
  on_submit (fun p => inr (fst (endpoint p g))) query max_duration.

End Endpoint.

(** ** Vocabulary of the statements *)

(** A string made of white space only (the empty string included). *)
Definition blank (s : string) : Prop :=
  Forall (fun c => PyStr.isspace c = true) (list_ascii_of_string s).

(** A string without a decimal digit. *)
Definition digitless (s : string) : Prop :=
  Forall (fun c => PyStr.isdigit c = false) (list_ascii_of_string s).

(** The invariant of extracted records. *)
Definition valid_record (a : Assessment) : Prop :=
  name a <> "" /\ url a <> "".

(** Ascending and descending order of candidates by score. *)
Definition by_score_asc (x y : Candidate) : Prop := (fst x <= fst y)%Q.
Definition by_score_desc (x y : Candidate) : Prop := (fst y <= fst x)%Q.

(** Two candidates with the same score whose records differ. *)
Definition tied_apart (x y : Candidate) : Prop :=
  (fst x == fst y)%Q /\ assessment_eqb (snd x) (snd y) = false.

(** No two candidates of [l] are tied with different records. *)
Definition ties_agree (l : list Candidate) : Prop :=
  forall x y, In x l -> In y l -> ~ tied_apart x y.

(** The candidates of [l] whose score is [q], in the order of [l]. *)
Definition scored (q : Q) (l : list Candidate) : list Candidate :=
  filter (fun c => Qeq_bool (fst c) q) l.

(** The duration test of the loop, as a predicate on a record. *)
Definition passes_duration (max_duration : option Z) (a : Assessment)
  : bool :=
  match duration_constraint max_duration, duration_value a with
  | Some m, Some d => (d <=? m)%Z
  | _, _ => true
  end.

(** The candidates the loop keeps. *)
Definition keep (max_duration : option Z) (c : Candidate) : bool :=
  negb (Qlt_bool (fst c) threshold) && passes_duration max_duration (snd c).

(** A failed download that the loop retries: a timeout or another
    network-level error. *)
Definition transient (r : exn + Soup) : Prop :=
  exists m, r = inl (Timeout m) \/ r = inl (RequestException m).

(** The message of a 404, by whether a non-zero [max_duration] was sent. *)
Definition not_found_detail (max_duration : option Z) : string :=
  match duration_constraint max_duration with
  | Some m => duration_message m
  | None => no_relevant_message
  end.

(** The duration constraint is what emptied the filtered set: nothing is
    left with it, something would be left without it. *)
Definition emptied_by_duration (max_duration : option Z)
    (ranked : list Candidate) : Prop :=
  filter_assessments max_duration ranked = []
  /\ filter_assessments None ranked <> [].

(** A 404 whose message is the duration one exactly when the duration
    constraint emptied the filtered set. *)
Definition message_names_cause (response : exn + RecommendationResponse)
    (max_duration : option Z) (ranked : list Candidate) : Prop :=
  exists detail,
    response = inl (HTTPException 404 detail)
    /\ ((exists m, detail = duration_message m)
        <-> emptied_by_duration max_duration ranked)
    /\ (detail = no_relevant_message
        <-> ~ emptied_by_duration max_duration ranked).

(** ** Vocabulary of the further properties *)

(** No white space at either end. *)
Definition trimmed (s : string) : Prop :=
  (forall c r, s = String c r -> PyStr.isspace c = false)
  /\ (forall r c, s = (r ++ String c "")%string -> PyStr.isspace c = false).

(** A non-empty run of decimal digits. *)
Definition digits (s : string) : Prop :=
  s <> ""
  /\ Forall (fun c => PyStr.isdigit c = true) (list_ascii_of_string s).

(** The units the extractor looks for, in lower case. *)
Definition duration_units : list string :=
  ["minutes"; "minute"; "mins"; "min"].

(** [d] reads: the digits [ds], white space, a unit. *)
Definition duration_text (d ds : string) : Prop :=
  exists ws u,
    d = (ds ++ ws ++ u)%string /\ digits ds /\ blank ws
    /\ In (PyStr.lower u) duration_units.

(** The values [test_type] takes. *)
Definition test_types : list string :=
  ["Cognitive"; "Personality"; "Skills"; "General"].

(** An exception that no [except] clause of the fetch names: it falls to
    [except Exception]. *)
Definition unexpected (e : exn) : Prop :=
  match e with
  | Timeout _ | RequestException _ | ValueError _ => False
  | _ => True
  end.

(** The statuses the handler answers with when it fails. *)
Definition failure_statuses : list Z := [400; 404; 500; 503]%Z.

(** How many entries [l[:stop]] has, for a list of [n] entries. *)
Definition slice_length (n : Z) (stop : option Z) : Z :=
  match stop with
  | None => n
  | Some k => if (k <? 0)%Z then Z.max 0 (n + k) else Z.min k n
  end.

(** ** A concrete world, for running the model *)

Module Demo.

Definition java_tag : Tag :=
  mkTag (Some "  Java Programming Skills Test ")
        (Some (Some "/products/java"))
        (Some "Measures Java knowledge. Takes 40 Minutes to complete.").

Definition style_tag : Tag :=
  mkTag (Some "Personality Style Inventory")
        (Some (Some "https://example.org/psi"))
        (Some "A personality questionnaire, about 30 mins.").

Definition untimed_tag : Tag :=
  mkTag (Some "Numerical Reasoning")
        (Some (Some "numerical"))
        (Some "An aptitude test.").

(** The same product listed a second time, under another link. *)
Definition java_mirror_tag : Tag :=
  mkTag (Some "Java Programming Skills Test")
        (Some (Some "/products/java-new"))
        (Some "Measures Java knowledge. Takes 40 Minutes to complete.").

Definition nameless_tag : Tag :=
  mkTag None (Some (Some "/products/x")) (Some "10 minutes").

Definition page (sections : list Tag) : Soup :=
  mkSoup (fun i => if i =? 1 then sections else []) [].

(** Every GET succeeds with the same page. *)
Definition steady (sections : list Tag) : nat -> exn + Soup :=
  fun _ => inr (page sections).

(** Vectors are the texts themselves. *)
Definition encode (texts : list string) : exn + list string := inr texts.

(** A similarity that favours the Java test, puts the style inventory on
    the relevance floor and everything else below it. *)
Definition cosine (query t : string) : Q :=
  if PyStr.contains "Java" t then (9 # 10)%Q
  else if PyStr.contains "Style" t then (1 # 10)%Q
  else (1 # 20)%Q.

Definition java : Assessment :=
  mkAssessment "Java Programming Skills Test"
    "https://www.shl.com/products/java" true false "40 Minutes" "Skills".

Definition java_mirror : Assessment :=
  mkAssessment "Java Programming Skills Test"
    "https://www.shl.com/products/java-new" true false "40 Minutes" "Skills".

Definition style : Assessment :=
  mkAssessment "Personality Style Inventory"
    "https://example.org/psi" true false "30 mins" "Personality".

Definition numerical : Assessment :=
  mkAssessment "Numerical Reasoning"
    "https://www.shl.com/numerical" true false "Not specified" "Cognitive".

Definition tags : list Tag := [style_tag; java_tag; untimed_tag; nameless_tag].

Definition catalog : list Assessment := [style; java; numerical].

(** The catalogue ranked by [cosine]. *)
Definition ranked : list Candidate :=
  [((9 # 10)%Q, java); ((1 # 10)%Q, style); ((1 # 20)%Q, numerical)].

(** A similarity under the relevance floor. *)
Definition faint (query t : string) : Q := (1 # 20)%Q.

(** A page on which no selector finds anything. *)
Definition bare_page : Soup := mkSoup (fun _ => []) [].

(** A site that never answers in time. *)
Definition down : nat -> exn + Soup := fun _ => inl (Timeout "timed out").

(** A site that resets the connection. *)
Definition refusing : nat -> exn + Soup :=
  fun _ => inl (RequestException "connection reset").

(** A page so deeply nested that the parser gives up. *)
Definition crashing : nat -> exn + Soup :=
  fun _ => inl (OtherException "maximum recursion depth exceeded").

(** An encoder that is out of memory. *)
Definition exhausted (texts : list string) : exn + list string :=
  inl (OtherException "CUDA out of memory").

(** An encoder that fails on batches: the query alone goes through. *)
Definition no_batch (texts : list string) : exn + list string :=
  match texts with
  | [_] => inr texts
  | _ => inl (OtherException "CUDA out of memory")
  end.

(** A site that answers the second GET, with the given page. *)
Definition slow (soup : Soup) : nat -> exn + Soup :=
  fun n => if n =? 0 then inl (Timeout "timed out") else inr soup.

End Demo.
(** * Properties *)

(** ** Strings *)

Section StringFacts.

Import PyStr.

Lemma lstrip_blank s : blank s -> lstrip s = "".
Proof.
  induction s as [|c r IH]; simpl; intros H; [reflexivity|].
  inversion H as [|? ? Hc Hr]; subst. rewrite Hc. now apply IH.
Qed.

Lemma strip_blank s : blank s -> strip s = "".
Proof. intros H. unfold strip. now rewrite lstrip_blank. Qed.

Lemma rstrip_empty_blank s : rstrip s = "" -> blank s.
Proof.
  induction s as [|c r IH]; simpl; intros H; [constructor|].
  destruct (rstrip r) eqn:E; [|discriminate].
  destruct (isspace c) eqn:Hc; [|discriminate].
  constructor; [exact Hc | now apply IH].
Qed.

(** [s.strip()] is empty exactly for the strings made of white space. *)
Lemma strip_empty_iff s : strip s = "" <-> blank s.
Proof.
  split; [|apply strip_blank].
  unfold strip. intros H. apply rstrip_empty_blank in H.
  induction s as [|c r IH]; [constructor|].
  simpl in H. destruct (isspace c) eqn:E.
  - constructor; [exact E | now apply IH].
  - inversion H as [|? ? Hc Hr]; subst. congruence.
Qed.

Lemma search_digits_digitless s : digitless s -> search_digits s = None.
Proof.
  induction s as [|c r IH]; simpl; intros H; [reflexivity|].
  inversion H as [|? ? Hc Hr]; subst. rewrite Hc. now apply IH.
Qed.

Lemma search_digits_none s : search_digits s = None -> digitless s.
Proof.
  induction s as [|c r IH]; simpl; intros H; [constructor|].
  destruct (isdigit c) eqn:E; [discriminate|].
  constructor; [exact E | now apply IH].
Qed.

Lemma truthy_true s : truthy s = true <-> s <> "".
Proof. destruct s; simpl; split; congruence. Qed.

End StringFacts.

(** ** The catalogue extractor *)

Lemma extract_section_some section a :
  extract_section section = Some a ->
  valid_record a /\ name a = section_name section
  /\ url a = section_url section.
Proof.
  unfold extract_section, valid_record.
  destruct (PyStr.truthy (section_name section)) eqn:Hn; simpl; [|discriminate].
  destruct (PyStr.truthy (section_url section)) eqn:Hu; [|discriminate].
  intros H; inversion H; subst; simpl.
  apply truthy_true in Hn. apply truthy_true in Hu. auto.
Qed.

Lemma extract_section_none section :
  extract_section section = None <->
  section_name section = "" \/ section_url section = "".
Proof.
  unfold extract_section.
  destruct (section_name section) eqn:Hn; simpl.
  - split; auto.
  - destruct (section_url section) eqn:Hu; simpl; split; auto; try discriminate.
    intros [H|H]; discriminate.
Qed.

Lemma extract_sections_valid sections :
  Forall valid_record (extract_sections sections).
Proof.
  induction sections as [|s r IH]; simpl; [constructor|].
  destruct (extract_section s) eqn:E; [|exact IH].
  constructor; [|exact IH]. now apply extract_section_some in E.
Qed.

(** A record is extracted only from a section that has both fields. *)
Lemma extract_sections_in sections a :
  In a (extract_sections sections) ->
  exists section, In section sections /\ extract_section section = Some a.
Proof.
  induction sections as [|s r IH]; simpl; [tauto|].
  destruct (extract_section s) eqn:E.
  - intros [->|H]; [exists s; auto|].
    destruct (IH H) as [x [Hx Ex]]; exists x; auto.
  - intros H. destruct (IH H) as [x [Hx Ex]]; exists x; auto.
Qed.

Lemma extract_sections_dropped sections :
  Forall (fun s => section_name s = "" \/ section_url s = "") sections ->
  extract_sections sections = [].
Proof.
  induction 1 as [|s r Hs Hr IH]; simpl; [reflexivity|].
  apply extract_section_none in Hs. now rewrite Hs.
Qed.

Lemma parse_catalog_raises soup e :
  parse_catalog soup = inl e -> exists m, e = ValueError m.
Proof.
  unfold parse_catalog, find_assessment_sections.
  destruct (first_matching_pattern soup [0; 1; 2]);
    [destruct (find_all_general soup)|];
    repeat match goal with
           | |- context [match extract_sections ?l with _ => _ end] =>
               destruct (extract_sections l)
           end;
    intros H; inversion H; eauto.
Qed.

Lemma parse_catalog_ok soup assessments :
  parse_catalog soup = inr assessments ->
  assessments <> [] /\ Forall valid_record assessments.
Proof.
  unfold parse_catalog.
  destruct (find_assessment_sections soup) as [e|sections]; [discriminate|].
  pose proof (extract_sections_valid sections) as V.
  destruct (extract_sections sections) eqn:E; [discriminate|].
  intros H; inversion H; subst. split; [discriminate | exact V].
Qed.

Lemma parse_catalog_no_valid soup sections :
  find_assessment_sections soup = inr sections ->
  extract_sections sections = [] ->
  parse_catalog soup
  = inl (ValueError "No valid assessments could be extracted from the page.").
Proof. unfold parse_catalog. now intros -> ->. Qed.

(** ** Ranking *)

Lemma Qlt_bool_iff x y : Qlt_bool x y = true <-> (x < y)%Q.
Proof.
  unfold Qlt_bool. rewrite negb_true_iff.
  split; intros H.
  - apply Qnot_le_lt. intros C. apply Qle_bool_iff in C. congruence.
  - destruct (Qle_bool y x) eqn:E; [|reflexivity].
    apply Qle_bool_iff in E. lra.
Qed.

Lemma Qlt_bool_false x y : Qlt_bool x y = false <-> (y <= x)%Q.
Proof.
  unfold Qlt_bool. rewrite negb_false_iff. apply Qle_bool_iff.
Qed.

Lemma assessment_eqb_refl a : assessment_eqb a a = true.
Proof.
  unfold assessment_eqb.
  now rewrite !String.eqb_refl, !Bool.eqb_reflx.
Qed.

Lemma assessment_eqb_sym a b : assessment_eqb a b = assessment_eqb b a.
Proof.
  unfold assessment_eqb.
  rewrite (String.eqb_sym (name a)), (String.eqb_sym (url a)),
    (String.eqb_sym (duration a)), (String.eqb_sym (test_type a)).
  now destruct (remote_testing a), (remote_testing b),
    (adaptive_support a), (adaptive_support b).
Qed.

Lemma assessment_eqb_eq a b : assessment_eqb a b = true <-> a = b.
Proof.
  split; [|intros ->; apply assessment_eqb_refl].
  unfold assessment_eqb. rewrite !andb_true_iff.
  intros [[[[[H1 H2] H3] H4] H5] H6].
  apply String.eqb_eq in H1, H2, H5, H6. apply Bool.eqb_prop in H3, H4.
  destruct a, b; simpl in *; congruence.
Qed.

Lemma tied_apart_irrefl x : ~ tied_apart x x.
Proof. intros [_ H]. rewrite assessment_eqb_refl in H. discriminate. Qed.

Lemma tied_apart_sym x y : tied_apart x y -> tied_apart y x.
Proof.
  intros [H1 H2]. split; [now symmetry|]. now rewrite assessment_eqb_sym.
Qed.

Lemma tuple_lt_true x y : tuple_lt x y = inr true -> (fst x < fst y)%Q.
Proof.
  unfold tuple_lt. destruct (Qeq_bool (fst x) (fst y)).
  - destruct (assessment_eqb (snd x) (snd y)); discriminate.
  - intros H. apply Qlt_bool_iff. congruence.
Qed.

Lemma tuple_lt_false x y :
  tuple_lt x y = inr false -> (fst y <= fst x)%Q /\ ~ tied_apart x y.
Proof.
  unfold tuple_lt, tied_apart. destruct (Qeq_bool (fst x) (fst y)) eqn:E.
  - destruct (assessment_eqb (snd x) (snd y)); [|discriminate].
    intros _. apply Qeq_bool_iff in E. split; [lra|].
    intros [_ C]; discriminate.
  - intros H. split.
    + apply Qlt_bool_false. congruence.
    + intros [C _]. apply Qeq_bool_iff in C. congruence.
Qed.

Lemma tuple_lt_raises x y e :
  tuple_lt x y = inl e -> e = TypeError no_lt_msg /\ tied_apart x y.
Proof.
  unfold tuple_lt, tied_apart. destruct (Qeq_bool (fst x) (fst y)) eqn:E.
  - destruct (assessment_eqb (snd x) (snd y)) eqn:A; [discriminate|].
    intros H; inversion H. apply Qeq_bool_iff in E. auto.
  - discriminate.
Qed.

Lemma tuple_lt_tied_apart x y :
  tied_apart x y -> tuple_lt x y = inl (TypeError no_lt_msg).
Proof.
  intros [H1 H2]. unfold tuple_lt.
  apply Qeq_bool_iff in H1. now rewrite H1, H2.
Qed.

Lemma insert_perm pivot sorted r :
  insert pivot sorted = inr r -> Permutation (pivot :: sorted) r.
Proof.
  revert r. induction sorted as [|y ys IH]; simpl; intros r H.
  - inversion H; auto.
  - destruct (tuple_lt pivot y) as [e|[|]]; [discriminate| |].
    + inversion H; auto.
    + destruct (insert pivot ys) as [e|r']; [discriminate|].
      inversion H; subst. rewrite perm_swap. constructor. now apply IH.
Qed.

Lemma insert_sorted pivot sorted r :
  StronglySorted by_score_asc sorted ->
  insert pivot sorted = inr r ->
  StronglySorted by_score_asc r.
Proof.
  revert r. induction sorted as [|y ys IH]; simpl; intros r S H.
  - inversion H. repeat constructor.
  - apply StronglySorted_inv in S. destruct S as [S F].
    destruct (tuple_lt pivot y) as [e|[|]] eqn:L; [discriminate| |].
    + inversion H; subst. apply tuple_lt_true in L.
      constructor; [constructor; assumption|].
      constructor; [unfold by_score_asc; lra|].
      eapply Forall_impl; [|exact F].
      unfold by_score_asc. intros z Hz. lra.
    + destruct (insert pivot ys) as [e|r'] eqn:I; [discriminate|].
      inversion H; subst. apply tuple_lt_false in L. destruct L as [L _].
      constructor; [now apply IH|].
      apply insert_perm in I. rewrite <- I. constructor; assumption.
Qed.

(** A successful insertion has compared the pivot with every item it is
    tied with. *)
Lemma insert_ties pivot sorted r :
  StronglySorted by_score_asc sorted ->
  insert pivot sorted = inr r ->
  Forall (fun y => ~ tied_apart pivot y) sorted.
Proof.
  revert r. induction sorted as [|y ys IH]; simpl; intros r S H.
  - constructor.
  - apply StronglySorted_inv in S. destruct S as [S F].
    destruct (tuple_lt pivot y) as [e|[|]] eqn:L; [discriminate| |].
    + apply tuple_lt_true in L. constructor.
      * intros [C _]. lra.
      * eapply Forall_impl; [|exact F].
        unfold by_score_asc. intros z Hz [C _]. lra.
    + destruct (insert pivot ys) as [e|r'] eqn:I; [discriminate|].
      apply tuple_lt_false in L. constructor; [tauto|].
      eapply IH; eauto.
Qed.

Lemma insert_raises pivot sorted e :
  insert pivot sorted = inl e ->
  e = TypeError no_lt_msg /\ exists y, In y sorted /\ tied_apart pivot y.
Proof.
  induction sorted as [|y ys IH]; simpl; intros H; [discriminate|].
  destruct (tuple_lt pivot y) as [e'|[|]] eqn:L.
  - inversion H; subst. apply tuple_lt_raises in L. destruct L.
    split; [assumption|]. exists y; auto.
  - discriminate.
  - destruct (insert pivot ys) as [e'|r']; [|discriminate].
    inversion H; subst. destruct (IH eq_refl) as [E [z [Hz T]]].
    split; [assumption|]. exists z; auto.
Qed.

(** The pivot goes behind the items of its own score. *)
Lemma insert_scored q pivot sorted r :
  StronglySorted by_score_asc sorted ->
  insert pivot sorted = inr r ->
  scored q r = scored q (sorted ++ [pivot]).
Proof.
  unfold scored.
  revert r. induction sorted as [|y ys IH]; simpl; intros r S H.
  - now inversion H.
  - apply StronglySorted_inv in S. destruct S as [S F].
    destruct (tuple_lt pivot y) as [e|[|]] eqn:L; [discriminate| |].
    + inversion H; subst. apply tuple_lt_true in L.
      rewrite filter_app. simpl.
      destruct (Qeq_bool (fst pivot) q) eqn:P.
      * apply Qeq_bool_iff in P.
        assert (Y : Qeq_bool (fst y) q = false).
        { destruct (Qeq_bool (fst y) q) eqn:E; [|reflexivity].
          apply Qeq_bool_iff in E. lra. }
        rewrite Y.
        assert (N : filter (fun c => Qeq_bool (fst c) q) ys = []).
        { clear -F L P. induction F as [|z zs Hz Hzs IHF]; simpl; [reflexivity|].
          unfold by_score_asc in Hz.
          destruct (Qeq_bool (fst z) q) eqn:E; [|exact IHF].
          apply Qeq_bool_iff in E. lra. }
        now rewrite N.
      * now rewrite app_nil_r.
    + destruct (insert pivot ys) as [e|r'] eqn:I; [discriminate|].
      inversion H; subst. simpl. rewrite (IH r' S eq_refl).
      reflexivity.
Qed.

Lemma scored_app q l1 l2 :
  scored q (l1 ++ l2) = scored q l1 ++ scored q l2.
Proof. apply filter_app. Qed.

Lemma sort_from_ok sorted todo r :
  StronglySorted by_score_asc sorted ->
  ties_agree sorted ->
  sort_from sorted todo = inr r ->
  StronglySorted by_score_asc r
  /\ Permutation (sorted ++ todo) r
  /\ ties_agree r
  /\ forall q, scored q r = scored q (sorted ++ todo).
Proof.
  revert sorted. induction todo as [|pivot rest IH]; simpl; intros sorted S T H.
  - inversion H; subst. rewrite app_nil_r. auto.
  - destruct (insert pivot sorted) as [e|sorted'] eqn:I; [discriminate|].
    pose proof (insert_perm _ _ _ I) as P.
    pose proof (insert_ties _ _ _ S I) as Ts.
    assert (T' : ties_agree sorted').
    { intros x y Hx Hy. rewrite Forall_forall in Ts.
      apply (Permutation_in _ (Permutation_sym P)) in Hx, Hy.
      destruct Hx as [<-|Hx], Hy as [<-|Hy].
      - apply tied_apart_irrefl.
      - now apply Ts.
      - intros C. apply tied_apart_sym in C. revert C. now apply Ts.
      - now apply T. }
    destruct (IH sorted' (insert_sorted _ _ _ S I) T' H) as [S' [P' [T'' Q']]].
    repeat split; try assumption.
    + rewrite <- P'. rewrite <- P.
      change (pivot :: rest) with ([pivot] ++ rest).
      rewrite app_assoc. apply Permutation_app_tail.
      rewrite Permutation_app_comm. reflexivity.
    + intros q. rewrite Q'.
      change (pivot :: rest) with ([pivot] ++ rest).
      rewrite !scored_app, (insert_scored q _ _ _ S I), scored_app.
      now rewrite <- app_assoc.
Qed.

Lemma sort_from_raises sorted todo e :
  sort_from sorted todo = inl e ->
  e = TypeError no_lt_msg
  /\ exists x y, In x (sorted ++ todo) /\ In y (sorted ++ todo)
                 /\ tied_apart x y.
Proof.
  revert sorted. induction todo as [|pivot rest IH]; simpl; intros sorted H;
    [discriminate|].
  destruct (insert pivot sorted) as [e'|sorted'] eqn:I.
  - inversion H; subst. apply insert_raises in I.
    destruct I as [E [y [Hy T]]]. split; [assumption|].
    exists pivot, y. rewrite !in_app_iff. simpl. auto.
  - destruct (IH _ H) as [E [x [y [Hx [Hy T]]]]]. split; [assumption|].
    exists x, y. apply insert_perm in I.
    assert (P : Permutation (sorted' ++ rest) (sorted ++ pivot :: rest)).
    { rewrite <- I. simpl. apply Permutation_middle. }
    split; [|split]; try assumption; eapply Permutation_in; eauto.
Qed.

Lemma StronglySorted_app {A} (R : A -> A -> Prop) l1 l2 :
  StronglySorted R l1 -> StronglySorted R l2 ->
  (forall x y, In x l1 -> In y l2 -> R x y) ->
  StronglySorted R (l1 ++ l2).
Proof.
  induction l1 as [|a l1 IH]; simpl; intros S1 S2 H; [assumption|].
  apply StronglySorted_inv in S1. destruct S1 as [S1 F].
  constructor.
  - apply IH; auto.
  - apply Forall_app. split; [assumption|].
    apply Forall_forall. intros y Hy. apply H; auto.
Qed.

Lemma StronglySorted_rev {A} (R : A -> A -> Prop) l :
  StronglySorted R l -> StronglySorted (fun x y => R y x) (rev l).
Proof.
  induction 1 as [|a l S IH F]; simpl; [constructor|].
  apply StronglySorted_app; [assumption|repeat constructor|].
  intros x y Hx [<-|[]]. apply in_rev in Hx.
  rewrite Forall_forall in F. now apply F.
Qed.

Lemma scored_rev q l : scored q (rev l) = rev (scored q l).
Proof.
  unfold scored. induction l as [|a l IH]; simpl; [reflexivity|].
  rewrite filter_app, IH. simpl.
  destruct (Qeq_bool (fst a) q); simpl; [reflexivity|apply app_nil_r].
Qed.

Lemma ties_agree_perm l l' :
  Permutation l l' -> ties_agree l -> ties_agree l'.
Proof.
  intros P T x y Hx Hy. apply Permutation_sym in P.
  apply T; eapply Permutation_in; eauto.
Qed.

(** What a successful [sort(reverse=True)] returns: the same candidates,
    by non-increasing score, those of equal score in their original
    order. *)
Lemma list_sort_reverse_ok l r :
  list_sort_reverse l = inr r ->
  StronglySorted by_score_desc r
  /\ Permutation l r
  /\ ties_agree l
  /\ forall q, scored q r = scored q l.
Proof.
  unfold list_sort_reverse, list_sort.
  destruct (sort_from [] (rev l)) as [e|s] eqn:E; [discriminate|].
  intros H; inversion H; subst.
  destruct (sort_from_ok [] (rev l) s) as [S [P [T Q']]];
    [constructor | intros x y [] | assumption |].
  simpl in P, Q'.
  assert (Pl : Permutation l s) by (rewrite <- P; apply Permutation_rev).
  repeat split.
  - apply (StronglySorted_rev _ _ S).
  - rewrite Pl. apply Permutation_rev.
  - apply (ties_agree_perm s); [now apply Permutation_sym | assumption].
  - intros q. rewrite scored_rev, Q', scored_rev. apply rev_involutive.
Qed.

(** The only way the sort fails. *)
Lemma list_sort_reverse_raises l e :
  list_sort_reverse l = inl e ->
  e = TypeError no_lt_msg /\ ~ ties_agree l.
Proof.
  unfold list_sort_reverse, list_sort.
  destruct (sort_from [] (rev l)) as [e'|s] eqn:E; [|discriminate].
  intros H; inversion H; subst.
  apply sort_from_raises in E. destruct E as [E [x [y [Hx [Hy T]]]]].
  split; [assumption|]. simpl in Hx, Hy. apply in_rev in Hx, Hy.
  intros C. exact (C x y Hx Hy T).
Qed.

(** The sort succeeds exactly when tied candidates carry equal records. *)
Lemma list_sort_reverse_succeeds_iff l :
  (exists r, list_sort_reverse l = inr r) <-> ties_agree l.
Proof.
  split.
  - intros [r H]. now apply list_sort_reverse_ok in H.
  - intros T. destruct (list_sort_reverse l) as [e|r] eqn:E; [|eauto].
    apply list_sort_reverse_raises in E. tauto.
Qed.

Lemma list_sort_reverse_tied_apart l x y :
  In x l -> In y l -> tied_apart x y ->
  list_sort_reverse l = inl (TypeError no_lt_msg).
Proof.
  intros Hx Hy T. destruct (list_sort_reverse l) as [e|r] eqn:E.
  - apply list_sort_reverse_raises in E. now destruct E as [-> _].
  - apply list_sort_reverse_ok in E. destruct E as [_ [_ [A _]]].
    exfalso. exact (A x y Hx Hy T).
Qed.

(** ** Filtering *)

Lemma filter_assessments_keep max_duration ranked :
  filter_assessments max_duration ranked
  = map snd (filter (keep max_duration) ranked).
Proof.
  induction ranked as [|[sim a] rest IH]; simpl; [reflexivity|].
  destruct (keep max_duration (sim, a)) eqn:K; simpl; rewrite <- IH;
    unfold keep, passes_duration in K; simpl in K;
    destruct (Qlt_bool sim threshold); simpl in K; try discriminate;
    try reflexivity;
    destruct (duration_constraint max_duration) as [m|]; try discriminate;
    try reflexivity;
    destruct (duration_value a) as [d|]; try discriminate; try reflexivity;
    now rewrite K.
Qed.

Lemma filter_assessments_app max_duration l1 l2 :
  filter_assessments max_duration (l1 ++ l2)
  = filter_assessments max_duration l1 ++ filter_assessments max_duration l2.
Proof. now rewrite !filter_assessments_keep, filter_app, map_app. Qed.

Lemma filter_assessments_one max_duration c :
  filter_assessments max_duration [c]
  = if keep max_duration c then [snd c] else [].
Proof.
  rewrite filter_assessments_keep. simpl. now destruct (keep max_duration c).
Qed.

Lemma filter_assessments_in max_duration ranked a :
  In a (filter_assessments max_duration ranked) <->
  exists sim, In (sim, a) ranked /\ keep max_duration (sim, a) = true.
Proof.
  rewrite filter_assessments_keep, in_map_iff. split.
  - intros [[sim b] [E H]]. simpl in E. subst b.
    apply filter_In in H. eauto.
  - intros [sim [H K]]. exists (sim, a). split; [reflexivity|].
    apply filter_In. auto.
Qed.

Lemma duration_constraint_positive m :
  (0 < m)%Z -> duration_constraint (Some m) = Some m.
Proof.
  intros H. unfold duration_constraint.
  destruct (Z.eqb_spec m 0); [lia|reflexivity].
Qed.

(** ** The catalogue fetch *)

Section Fetch.

Variable net : nat -> exn + Soup.

Lemma scrape_attempts_cons attempt rest g :
  scrape_attempts net (attempt :: rest) g =
  match net g with
  | inl e => handle_attempt_error attempt (scrape_attempts net rest) e (S g)
  | inr soup =>
      match parse_catalog soup with
      | inl e => handle_attempt_error attempt (scrape_attempts net rest) e (S g)
      | inr assessments => (inr (Some assessments), S g)
      end
  end.
Proof.
  simpl. unfold try_except, bind, attempt_body, session_get, bind, lift, ret.
  destruct (net g) as [e|soup]; [reflexivity|].
  destruct (parse_catalog soup); reflexivity.
Qed.

Lemma scrape_attempts_retry attempt rest g :
  transient (net g) -> attempt <> max_retries - 1 ->
  scrape_attempts net (attempt :: rest) g = scrape_attempts net rest (S g).
Proof.
  intros [m [H|H]] N; rewrite scrape_attempts_cons, H; simpl;
    apply Nat.eqb_neq in N; simpl in N; now rewrite N.
Qed.

Lemma scrape_attempts_final rest g :
  transient (net g) ->
  exists detail,
    scrape_attempts net (max_retries - 1 :: rest) g
    = (inl (HTTPException 503 detail), S g).
Proof.
  intros [m [H|H]]; rewrite scrape_attempts_cons, H; simpl; unfold raise;
    eauto.
Qed.

Lemma scrape_attempts_parse_failure attempt rest g soup e :
  net g = inr soup -> parse_catalog soup = inl e ->
  scrape_attempts net (attempt :: rest) g
  = (inl (HTTPException 500
            ("Failed to parse assessments: " ++ str_exn e)%string), S g).
Proof.
  intros H P. rewrite scrape_attempts_cons, H, P.
  destruct (parse_catalog_raises _ _ P) as [m ->]. reflexivity.
Qed.

Lemma scrape_attempts_returns attempts g r g' :
  scrape_attempts net attempts g = (inr r, g') ->
  match r with
  | Some assessments => assessments <> [] /\ Forall valid_record assessments
  | None => ~ In (max_retries - 1) attempts
  end.
Proof.
  revert g. induction attempts as [|attempt rest IH]; intros g.
  - simpl. unfold ret. intros H; inversion H; subst. tauto.
  - rewrite scrape_attempts_cons.
    assert (K : forall e,
               handle_attempt_error attempt (scrape_attempts net rest) e (S g)
               = (inr r, g') ->
               match r with
               | Some assessments =>
                   assessments <> [] /\ Forall valid_record assessments
               | None => ~ In (max_retries - 1) (attempt :: rest)
               end).
    { intros e. destruct e; simpl; unfold raise; try discriminate;
        destruct (Nat.eqb_spec attempt 2) as [E|E]; try discriminate;
        intros H; apply IH in H; destruct r; try assumption;
        simpl; intros [C|C]; auto. }
    destruct (net g) as [e|soup]; [apply K|].
    destruct (parse_catalog soup) as [e|assessments] eqn:P; [apply K|].
    intros H; inversion H; subst. now apply parse_catalog_ok in P.
Qed.

(** A catalogue that is returned is never empty and holds valid records
    only. *)
Lemma scrape_shl_catalog_returns g r g' :
  scrape_shl_catalog net g = (inr r, g') ->
  exists assessments,
    r = Some assessments /\ assessments <> []
    /\ Forall valid_record assessments.
Proof.
  intros H. apply scrape_attempts_returns in H. destruct r as [a|].
  - exists a. tauto.
  - exfalso. apply H. simpl. auto.
Qed.

(** The catalogue fetch after [k] retried failures. *)
Lemma scrape_shl_catalog_skip k g :
  k < max_retries ->
  (forall j, j < k -> transient (net (g + j))) ->
  scrape_shl_catalog net g
  = scrape_attempts net (seq k (max_retries - k)) (g + k).
Proof.
  unfold scrape_shl_catalog. intros K T.
  change (seq 0 max_retries) with [0; 1; 2].
  assert (T0 : 0 < k -> transient (net g)).
  { intros L. rewrite <- (Nat.add_0_r g). now apply T. }
  assert (T1 : 1 < k -> transient (net (S g))).
  { intros L. rewrite <- (Nat.add_1_r g). now apply T. }
  destruct k as [|[|[|k]]]; [ | | |unfold max_retries in K; lia].
  - change (seq 0 (max_retries - 0)) with [0; 1; 2]. now rewrite Nat.add_0_r.
  - change (seq 1 (max_retries - 1)) with [1; 2].
    rewrite scrape_attempts_retry; [|apply T0; lia|discriminate].
    now rewrite Nat.add_1_r.
  - change (seq 2 (max_retries - 2)) with [2].
    rewrite scrape_attempts_retry; [|apply T0; lia|discriminate].
    rewrite scrape_attempts_retry; [|apply T1; lia|discriminate].
    now replace (g + 2) with (S (S g)) by lia.
Qed.

End Fetch.

(** ** The request handler *)

Lemma messages_differ m : duration_message m <> no_relevant_message.
Proof. unfold duration_message, no_relevant_message. simpl. discriminate. Qed.

Lemma slice_to_positive {A} (l : list A) k :
  (0 < k)%Z -> slice_to l (Some k) = firstn (Z.to_nat k) l.
Proof.
  intros H. unfold slice_to. destruct (Z.leb_spec 0 k); [reflexivity|lia].
Qed.

Lemma StronglySorted_filter {A} (R : A -> A -> Prop) f l :
  StronglySorted R l -> StronglySorted R (filter f l).
Proof.
  induction 1 as [|a l S IH F]; simpl; [constructor|].
  destruct (f a); [|assumption].
  constructor; [assumption|].
  rewrite Forall_forall in *. intros x Hx. apply filter_In in Hx.
  now apply F.
Qed.

Lemma in_firstn {A} n (l : list A) x : In x (firstn n l) -> In x l.
Proof.
  revert l. induction n as [|n IH]; intros [|a l]; simpl; try tauto.
  intros [H|H]; auto.
Qed.

Lemma StronglySorted_firstn {A} (R : A -> A -> Prop) n l :
  StronglySorted R l -> StronglySorted R (firstn n l).
Proof.
  revert l. induction n as [|n IH]; intros l S; simpl; [constructor|].
  destruct S as [|a l S F]; [constructor|].
  constructor; [now apply IH|].
  rewrite Forall_forall in *. intros x Hx. apply F.
  now apply in_firstn in Hx.
Qed.

Section Handler.

Variable net : nat -> exn + Soup.
Variable Vec : Type.
Variable encode : list string -> exn + list Vec.
Variable cosine : Vec -> Vec -> Q.

(** The handler, once the catalogue and the embeddings are there. *)
Lemma recommend_ranked request g g' assessments q embs :
  ~ blank (text request) ->
  scrape_shl_catalog net g = (inr (Some assessments), g') ->
  process_query Vec encode (text request) = inr q ->
  get_assessment_embeddings Vec encode assessments = inr embs ->
  recommend_assessments net Vec encode cosine request g =
  match rank (cosine_similarity Vec cosine q embs) assessments with
  | inl e =>
      (inl (HTTPException 500
              ("An unexpected error occurred: " ++ str_exn e)%string), g')
  | inr ranked =>
      match filter_assessments (max_duration request) ranked with
      | [] =>
          (inl (HTTPException 404 (not_found_detail (max_duration request))),
           g')
      | filtered =>
          (inr (mkResponse (slice_to filtered (max_results request))), g')
      end
  end.
Proof.
  intros B Hs Hq He.
  assert (Hb : PyStr.truthy (PyStr.strip (text request)) = true).
  { apply truthy_true. intros C. apply B. now apply strip_empty_iff. }
  destruct (scrape_shl_catalog_returns _ _ _ _ Hs) as [a [Ea [Na _]]].
  inversion Ea; subst a. clear Ea.
  unfold recommend_assessments, recommend_body.
  rewrite Hb. simpl negb. cbv iota.
  unfold try_except, bind. rewrite Hs.
  destruct assessments as [|a0 rest]; [congruence|].
  unfold lift. rewrite Hq, He.
  destruct (rank (cosine_similarity Vec cosine q embs) (a0 :: rest))
    as [e|ranked] eqn:R.
  - unfold rank in R. apply list_sort_reverse_raises in R.
    destruct R as [-> _]. reflexivity.
  - unfold not_found_detail.
    destruct (filter_assessments (max_duration request) ranked);
      [destruct (duration_constraint (max_duration request))|]; reflexivity.
Qed.

(** The response once the ranking has returned. For a request whose text is
    not blank and whose [max_results] is positive: when the catalogue is
    extracted, the embeddings are computed, the sort returns and the
    filtered set is not empty, the response holds the first
    [min(max_results, |filtered|)] entries of the filtered set, in its
    order, and they come by non-increasing similarity score, each with the
    score of a real candidate. *)
Theorem recommend_length_and_order
    request g g' assessments q embs ranked k :
  ~ blank (text request) ->
  max_results request = Some k -> (0 < k)%Z ->
  scrape_shl_catalog net g = (inr (Some assessments), g') ->
  process_query Vec encode (text request) = inr q ->
  get_assessment_embeddings Vec encode assessments = inr embs ->
  rank (cosine_similarity Vec cosine q embs) assessments = inr ranked ->
  filter_assessments (max_duration request) ranked <> [] ->
  exists picked,
    recommend_assessments net Vec encode cosine request g
    = (inr (mkResponse (map snd picked)), g')
    /\ map snd picked
       = firstn (Z.to_nat k)
           (filter_assessments (max_duration request) ranked)
    /\ Z.of_nat (List.length (map snd picked))
       = Z.min k (Z.of_nat (List.length
                   (filter_assessments (max_duration request) ranked)))
    /\ StronglySorted by_score_desc picked
    /\ incl picked (combine (cosine_similarity Vec cosine q embs) assessments).
Proof.
  intros B Hk Kpos Hs Hq He Hr Hf.
  exists (firstn (Z.to_nat k) (filter (keep (max_duration request)) ranked)).
  assert (E : map snd (firstn (Z.to_nat k)
                         (filter (keep (max_duration request)) ranked))
              = firstn (Z.to_nat k)
                  (filter_assessments (max_duration request) ranked)).
  { now rewrite filter_assessments_keep, firstn_map. }
  unfold rank in Hr. pose proof (list_sort_reverse_ok _ _ Hr) as [S [P _]].
  repeat split.
  - rewrite (recommend_ranked request g g' assessments q embs B Hs Hq He).
    unfold rank. rewrite Hr, E, Hk.
    destruct (filter_assessments (max_duration request) ranked) eqn:F;
      [congruence|].
    now rewrite slice_to_positive.
  - exact E.
  - rewrite E, length_firstn. lia.
  - apply StronglySorted_firstn, StronglySorted_filter, S.
  - intros c Hc. apply in_firstn in Hc. apply filter_In in Hc.
    destruct Hc as [Hc _]. eapply Permutation_in; [|exact Hc].
    now apply Permutation_sym.
Qed.

(** Two candidates with the same score and different records make the
    request fail: the sort raises, whichever pair it meets first. *)
Lemma recommend_fails_on_ties request g g' assessments q embs x y :
  ~ blank (text request) ->
  scrape_shl_catalog net g = (inr (Some assessments), g') ->
  process_query Vec encode (text request) = inr q ->
  get_assessment_embeddings Vec encode assessments = inr embs ->
  In x (combine (cosine_similarity Vec cosine q embs) assessments) ->
  In y (combine (cosine_similarity Vec cosine q embs) assessments) ->
  tied_apart x y ->
  recommend_assessments net Vec encode cosine request g
  = (inl (HTTPException 500
            ("An unexpected error occurred: " ++ no_lt_msg)%string), g').
Proof.
  intros B Hs Hq He Hx Hy T.
  rewrite (recommend_ranked request g g' assessments q embs B Hs Hq He).
  unfold rank. now rewrite (list_sort_reverse_tied_apart _ x y Hx Hy T).
Qed.

(** C6, as the code has it. When the pipeline succeeds and the filtered set
    is empty, the request fails with a 404; its message is the duration
    one, with the value sent, exactly when a non-zero [max_duration] was
    sent, and the no-relevant-assessments one exactly when [max_duration]
    is absent or zero. *)
Theorem not_found_message request g g' assessments q embs ranked :
  ~ blank (text request) ->
  scrape_shl_catalog net g = (inr (Some assessments), g') ->
  process_query Vec encode (text request) = inr q ->
  get_assessment_embeddings Vec encode assessments = inr embs ->
  rank (cosine_similarity Vec cosine q embs) assessments = inr ranked ->
  filter_assessments (max_duration request) ranked = [] ->
  exists detail,
    recommend_assessments net Vec encode cosine request g
    = (inl (HTTPException 404 detail), g')
    /\ (forall m, max_duration request = Some m -> m <> 0%Z ->
                  detail = duration_message m)
    /\ ((exists m, detail = duration_message m)
        <-> (exists m, max_duration request = Some m /\ m <> 0%Z))
    /\ (detail = no_relevant_message
        <-> (max_duration request = None
             \/ max_duration request = Some 0%Z)).
Proof.
  intros B Hs Hq He Hr Hf.
  exists (not_found_detail (max_duration request)). split.
  - rewrite (recommend_ranked request g g' assessments q embs B Hs Hq He).
    now rewrite Hr, Hf.
  - unfold not_found_detail, duration_constraint.
    destruct (max_duration request) as [m|].
    + destruct (Z.eqb_spec m 0) as [->|N].
      * repeat split; try tauto; try congruence.
        -- intros [m E]. symmetry in E. now apply messages_differ in E.
        -- intros [m [E N]]. congruence.
      * repeat split.
        -- intros m' E _. congruence.
        -- eauto.
        -- eauto.
        -- intros E. now apply messages_differ in E.
        -- intros [E|E]; congruence.
    + repeat split; try tauto; try congruence.
      * intros [m E]. symmetry in E. now apply messages_differ in E.
      * intros [m [E _]]. discriminate.
Qed.

End Handler.

(** The same on the sample catalogue: three records, one result asked
    for. *)
Lemma recommend_length_and_order_demo :
  exists picked,
    recommend_assessments (Demo.steady Demo.tags) string Demo.encode
      Demo.cosine (mkQueryRequest "Java developer" (Some 1%Z) None) 0
    = (inr (mkResponse (map snd picked)), 1)
    /\ map snd picked = firstn 1 [Demo.java; Demo.style]
    /\ Z.of_nat (List.length (map snd picked)) = Z.min 1 2
    /\ StronglySorted by_score_desc picked
    /\ incl picked
         (combine
            (cosine_similarity string Demo.cosine "Java developer"
               (map embedding_text Demo.catalog))
            Demo.catalog).
Proof.
  apply (recommend_length_and_order (Demo.steady Demo.tags) string
           Demo.encode Demo.cosine
           (mkQueryRequest "Java developer" (Some 1%Z) None)
           0 1 Demo.catalog "Java developer"
           (map embedding_text Demo.catalog)
           [((9 # 10)%Q, Demo.java); ((1 # 10)%Q, Demo.style);
            ((1 # 20)%Q, Demo.numerical)] 1%Z).
  - intros C. inversion C as [|? ? Hc Hr]. discriminate Hc.
  - reflexivity.
  - reflexivity.
  - reflexivity.
  - reflexivity.
  - reflexivity.
  - reflexivity.
  - discriminate.
Defined.

(** C2, at an input where the code departs from it. The catalogue lists
    one product under two links: the two records differ, their embedding
    texts are the same, so their scores are equal. The sort compares the
    tuples, falls back on comparing the records, and the request ends in a
    500 instead of a ranking in the extractor's order. *)
Theorem tied_scores_break_ranking :
  extract_sections [Demo.java_tag; Demo.java_mirror_tag]
  = [Demo.java; Demo.java_mirror]
  /\ embedding_text Demo.java = embedding_text Demo.java_mirror
  /\ rank
       (cosine_similarity string Demo.cosine "Java developer"
          (map embedding_text [Demo.java; Demo.java_mirror]))
       [Demo.java; Demo.java_mirror]
     = inl (TypeError no_lt_msg)
  /\ recommend_assessments
       (Demo.steady [Demo.java_tag; Demo.java_mirror_tag]) string Demo.encode
       Demo.cosine (mkQueryRequest "Java developer" (Some 10%Z) None) 0
     = (inl (HTTPException 500
               "An unexpected error occurred: '<' not supported between instances of 'Assessment' and 'Assessment'"),
        1).
Proof. repeat split. Qed.

(** C1, at an input where the code departs from it. The text is not blank,
    [max_results] is positive, the catalogue is extracted (two records, the
    same product under two links), both embeddings are computed, and both
    candidates score 0.9 and meet the relevance floor and the duration
    test: the response should hold [min(10, 2) = 2] recommendations. The
    scores being equal, the sort raises, and the request ends in a 500. *)
Theorem tied_scores_break_response :
  ~ blank "Java developer"
  /\ scrape_shl_catalog (Demo.steady [Demo.java_tag; Demo.java_mirror_tag]) 0
     = (inr (Some [Demo.java; Demo.java_mirror]), 1)
  /\ process_query string Demo.encode "Java developer" = inr "Java developer"
  /\ get_assessment_embeddings string Demo.encode
       [Demo.java; Demo.java_mirror]
     = inr (map embedding_text [Demo.java; Demo.java_mirror])
  /\ combine
       (cosine_similarity string Demo.cosine "Java developer"
          (map embedding_text [Demo.java; Demo.java_mirror]))
       [Demo.java; Demo.java_mirror]
     = [((9 # 10)%Q, Demo.java); ((9 # 10)%Q, Demo.java_mirror)]
  /\ filter_assessments None
       [((9 # 10)%Q, Demo.java); ((9 # 10)%Q, Demo.java_mirror)]
     = [Demo.java; Demo.java_mirror]
  /\ recommend_assessments
       (Demo.steady [Demo.java_tag; Demo.java_mirror_tag]) string Demo.encode
       Demo.cosine (mkQueryRequest "Java developer" (Some 10%Z) None) 0
     = (inl (HTTPException 500
               "An unexpected error occurred: '<' not supported between instances of 'Assessment' and 'Assessment'"),
        1).
Proof.
  split.
  { intros C. inversion C as [|? ? Hc Hr]. discriminate Hc. }
  repeat split.
Qed.

(** C6, as stated, fails. One candidate under the relevance floor and
    [max_duration = 30]: the floor empties the set, the constraint removes
    nothing, and the message is the duration one. *)
Lemma duration_message_without_duration_cause :
  ~ message_names_cause
      (fst (recommend_assessments (Demo.steady [Demo.java_tag]) string
              Demo.encode Demo.faint
              (mkQueryRequest "Java developer" (Some 10%Z) (Some 30%Z)) 0))
      (Some 30%Z) [((1 # 20)%Q, Demo.java)].
Proof.
  intros [detail [E [D _]]].
  assert (R : fst (recommend_assessments (Demo.steady [Demo.java_tag]) string
                     Demo.encode Demo.faint
                     (mkQueryRequest "Java developer" (Some 10%Z) (Some 30%Z))
                     0)
              = inl (HTTPException 404 (duration_message 30)))
    by reflexivity.
  rewrite R in E. inversion E as [E']. clear E R.
  assert (C : emptied_by_duration (Some 30%Z) [((1 # 20)%Q, Demo.java)]).
  { apply D. exists 30%Z. now symmetry. }
  destruct C as [_ C]. now apply C.
Qed.

(** C6, as the code has it, on the same request. *)
Lemma not_found_message_demo :
  exists detail,
    recommend_assessments (Demo.steady [Demo.java_tag]) string Demo.encode
      Demo.faint (mkQueryRequest "Java developer" (Some 10%Z) (Some 30%Z)) 0
    = (inl (HTTPException 404 detail), 1)
    /\ (forall m, Some 30%Z = Some m -> m <> 0%Z ->
                  detail = duration_message m)
    /\ ((exists m, detail = duration_message m)
        <-> (exists m, Some 30%Z = Some m /\ m <> 0%Z))
    /\ (detail = no_relevant_message
        <-> (Some 30%Z = None \/ Some 30%Z = Some 0%Z)).
Proof.
  apply (not_found_message (Demo.steady [Demo.java_tag]) string Demo.encode
           Demo.faint
           (mkQueryRequest "Java developer" (Some 10%Z) (Some 30%Z))
           0 1 [Demo.java] "Java developer" [embedding_text Demo.java]
           [((1 # 20)%Q, Demo.java)]).
  - intros C. inversion C as [|? ? Hc Hr]. discriminate Hc.
  - reflexivity.
  - reflexivity.
  - reflexivity.
  - reflexivity.
  - reflexivity.
Defined.

(** ** The filter, claim by claim *)

Section Filter.

Variable max_duration : option Z.

Lemma filter_assessments_middle before c after :
  filter_assessments max_duration (before ++ c :: after)
  = filter_assessments max_duration before
      ++ (if keep max_duration c then [snd c] else [])
      ++ filter_assessments max_duration after.
Proof.
  change (c :: after) with ([c] ++ after).
  now rewrite !filter_assessments_app, filter_assessments_one.
Qed.

(** C3. The relevance floor is inclusive: a candidate whose score is below
    0.10 leaves no trace in the filtered set, and a candidate whose score is
    exactly 0.10 is kept at its place (when the duration test lets it
    through, as it always does without a constraint). *)
Theorem relevance_floor_inclusive sim a before after :
  ((sim < 1 # 10)%Q ->
   filter_assessments max_duration (before ++ (sim, a) :: after)
   = filter_assessments max_duration before
       ++ filter_assessments max_duration after)
  /\ ((sim == 1 # 10)%Q -> passes_duration max_duration a = true ->
      filter_assessments max_duration (before ++ (sim, a) :: after)
      = filter_assessments max_duration before
          ++ a :: filter_assessments max_duration after).
Proof.
  split; [intros L | intros E P]; rewrite filter_assessments_middle;
    unfold keep; simpl fst; simpl snd.
  - apply Qlt_bool_iff in L. unfold threshold. now rewrite L.
  - assert (F : Qlt_bool sim threshold = false).
    { apply Qlt_bool_false. unfold threshold. lra. }
    now rewrite F, P.
Qed.

(** C4. A candidate that passes the relevance floor and whose duration
    holds no digit is kept at its place, whatever [max_duration] is. *)
Theorem unparseable_duration_kept sim a before after :
  (1 # 10 <= sim)%Q -> digitless (duration a) ->
  filter_assessments max_duration (before ++ (sim, a) :: after)
  = filter_assessments max_duration before
      ++ a :: filter_assessments max_duration after
  /\ In a (filter_assessments max_duration (before ++ (sim, a) :: after)).
Proof.
  intros L D.
  assert (E : filter_assessments max_duration (before ++ (sim, a) :: after)
              = filter_assessments max_duration before
                  ++ a :: filter_assessments max_duration after).
  { rewrite filter_assessments_middle. unfold keep, passes_duration.
    simpl fst; simpl snd.
    apply Qlt_bool_false in L. fold threshold in L. rewrite L.
    unfold duration_value. rewrite (search_digits_digitless _ D).
    now destruct (duration_constraint max_duration). }
  split; [exact E|]. rewrite E. apply in_or_app. right. now left.
Qed.

End Filter.

(** C5. For a candidate that passes the relevance floor and whose duration
    parses to [d], under a positive constraint [m]: the record is in the
    filtered set if and only if [d <= m]. *)
Theorem parseable_duration_iff m d sim a ranked :
  (0 < m)%Z -> In (sim, a) ranked -> (1 # 10 <= sim)%Q ->
  duration_value a = Some d ->
  In a (filter_assessments (Some m) ranked) <-> (d <= m)%Z.
Proof.
  intros M I L D. rewrite filter_assessments_in.
  assert (K : forall s, keep (Some m) (s, a) = true ->  (d <= m)%Z).
  { intros s. unfold keep, passes_duration. simpl snd.
    rewrite (duration_constraint_positive _ M), D.
    rewrite andb_true_iff. intros [_ H]. now apply Z.leb_le. }
  split.
  - intros [s [_ H]]. now apply (K s).
  - intros H. exists sim. split; [assumption|].
    unfold keep, passes_duration. simpl fst; simpl snd.
    rewrite (duration_constraint_positive _ M), D.
    apply Qlt_bool_false in L. fold threshold in L. rewrite L.
    now apply Z.leb_le.
Qed.

(** C3 on a score of 1/20 and on a score of 1/10. *)
Lemma relevance_floor_inclusive_demo :
  filter_assessments None
    ([((9 # 10)%Q, Demo.java)] ++ ((1 # 20)%Q, Demo.numerical) :: [])
  = filter_assessments None [((9 # 10)%Q, Demo.java)]
      ++ filter_assessments None []
  /\ filter_assessments (Some 35%Z)
       ([((9 # 10)%Q, Demo.java)] ++ ((1 # 10)%Q, Demo.style) :: [])
     = filter_assessments (Some 35%Z) [((9 # 10)%Q, Demo.java)]
         ++ Demo.style :: filter_assessments (Some 35%Z) [].
Proof.
  split.
  - apply (proj1 (relevance_floor_inclusive None (1 # 20)%Q Demo.numerical
                    [((9 # 10)%Q, Demo.java)] [])).
    reflexivity.
  - apply (proj2 (relevance_floor_inclusive (Some 35%Z) (1 # 10)%Q Demo.style
                    [((9 # 10)%Q, Demo.java)] [])).
    + reflexivity.
    + reflexivity.
Defined.

(** C4 on a record whose duration is the marker for a missing one. *)
Lemma unparseable_duration_kept_demo :
  filter_assessments (Some 5%Z)
    ([((9 # 10)%Q, Demo.java)] ++ ((1 # 2)%Q, Demo.numerical) :: [])
  = filter_assessments (Some 5%Z) [((9 # 10)%Q, Demo.java)]
      ++ Demo.numerical :: filter_assessments (Some 5%Z) []
  /\ In Demo.numerical
       (filter_assessments (Some 5%Z)
          ([((9 # 10)%Q, Demo.java)] ++ ((1 # 2)%Q, Demo.numerical) :: [])).
Proof.
  apply (unparseable_duration_kept (Some 5%Z) (1 # 2)%Q Demo.numerical
           [((9 # 10)%Q, Demo.java)] []).
  - discriminate.
  - repeat constructor.
Defined.

(** C5 on the 40 minute test under a ceiling of 35. *)
Lemma parseable_duration_iff_demo :
  In Demo.java (filter_assessments (Some 35%Z) Demo.ranked)
  <-> (40 <= 35)%Z.
Proof.
  apply (parseable_duration_iff 35 40 (9 # 10)%Q Demo.java Demo.ranked).
  - reflexivity.
  - left. reflexivity.
  - discriminate.
  - reflexivity.
Defined.

(** ** The catalogue fetch, claim by claim *)

Section FetchClaims.

Variable net : nat -> exn + Soup.

Lemma scrape_attempts_at k :
  k < max_retries ->
  seq k (max_retries - k) = k :: seq (S k) (max_retries - S k).
Proof.
  intros K. unfold max_retries in *.
  destruct k as [|[|[|k]]]; try reflexivity; lia.
Qed.

(** C7. When the third attempt is reached and ends in a timeout or in a
    network-level error, the fetch fails with a 503 after three GETs. A
    parse failure on any attempt fails with a 500 on that very attempt: no
    further GET is sent. The two status codes differ. *)
Theorem fetch_failure_classes g :
  (forall m,
      (forall j, j < max_retries - 1 -> transient (net (g + j))) ->
      net (g + (max_retries - 1)) = inl (Timeout m) ->
      scrape_shl_catalog net g
      = (inl (HTTPException 503
                "Failed to fetch assessments: Connection timeout. Please try again later."),
         g + max_retries))
  /\ (forall m,
         (forall j, j < max_retries - 1 -> transient (net (g + j))) ->
         net (g + (max_retries - 1)) = inl (RequestException m) ->
         scrape_shl_catalog net g
         = (inl (HTTPException 503
                   ("Failed to fetch assessments: Network error - " ++ m)%string),
            g + max_retries))
  /\ (forall k soup e,
         k < max_retries ->
         (forall j, j < k -> transient (net (g + j))) ->
         net (g + k) = inr soup -> parse_catalog soup = inl e ->
         scrape_shl_catalog net g
         = (inl (HTTPException 500
                   ("Failed to parse assessments: " ++ str_exn e)%string),
            g + k + 1))
  /\ (503 <> 500)%Z.
Proof.
  repeat split.
  - intros m T H.
    rewrite (scrape_shl_catalog_skip net 2 g); [|unfold max_retries; lia|exact T].
    change (seq 2 (max_retries - 2)) with [2].
    rewrite scrape_attempts_cons. change (max_retries - 1) with 2 in H.
    rewrite H. simpl. unfold raise, max_retries. do 2 f_equal. lia.
  - intros m T H.
    rewrite (scrape_shl_catalog_skip net 2 g); [|unfold max_retries; lia|exact T].
    change (seq 2 (max_retries - 2)) with [2].
    rewrite scrape_attempts_cons. change (max_retries - 1) with 2 in H.
    rewrite H. simpl. unfold raise, max_retries. do 2 f_equal. lia.
  - intros k soup e K T H P.
    rewrite (scrape_shl_catalog_skip net k g K T).
    rewrite (scrape_attempts_at k K).
    rewrite (scrape_attempts_parse_failure net _ _ _ soup e H P).
    do 2 f_equal. lia.
  - discriminate.
Qed.

(** C9. Every record the extractor returns has a name and a url, and the
    list it returns is never empty; a section without one of the two is
    dropped, and a record comes only from a section that has both. When
    no section of the page survives, the fetch fails with a 500 (no valid
    assessments) on that attempt. *)
Theorem extractor_records_valid g :
  (forall r g',
      scrape_shl_catalog net g = (inr r, g') ->
      exists assessments,
        r = Some assessments /\ assessments <> []
        /\ Forall valid_record assessments)
  /\ (forall section,
         section_name section = "" \/ section_url section = "" ->
         extract_section section = None)
  /\ (forall sections a,
         In a (extract_sections sections) ->
         valid_record a
         /\ exists section,
             In section sections /\ name a = section_name section
             /\ url a = section_url section)
  /\ (forall k soup sections,
         k < max_retries ->
         (forall j, j < k -> transient (net (g + j))) ->
         net (g + k) = inr soup ->
         find_assessment_sections soup = inr sections ->
         extract_sections sections = [] ->
         scrape_shl_catalog net g
         = (inl (HTTPException 500
                   "Failed to parse assessments: No valid assessments could be extracted from the page."),
            g + k + 1)).
Proof.
  split; [|split; [|split]].
  - intros r g'. apply scrape_shl_catalog_returns.
  - intros section. apply extract_section_none.
  - intros sections a H.
    destruct (extract_sections_in _ _ H) as [section [I E]].
    apply extract_section_some in E. destruct E as [V [N U]].
    split; [exact V|]. exists section. auto.
  - intros k soup sections K T H F E.
    pose proof (parse_catalog_no_valid _ _ F E) as P.
    rewrite (scrape_shl_catalog_skip net k g K T).
    rewrite (scrape_attempts_at k K).
    rewrite (scrape_attempts_parse_failure net _ _ _ soup _ H P).
    do 2 f_equal. lia.
Qed.

End FetchClaims.

(** C7 on a site that times out, one that resets the connection and one
    that answers the second GET with a page without sections. *)
Lemma fetch_failure_classes_demo :
  scrape_shl_catalog Demo.down 0
  = (inl (HTTPException 503
            "Failed to fetch assessments: Connection timeout. Please try again later."),
     3)
  /\ scrape_shl_catalog Demo.refusing 0
     = (inl (HTTPException 503
               "Failed to fetch assessments: Network error - connection reset"),
        3)
  /\ scrape_shl_catalog (Demo.slow Demo.bare_page) 0
     = (inl (HTTPException 500
               "Failed to parse assessments: No assessment sections found on the page. The page structure might have changed."),
        2).
Proof.
  split; [|split].
  - apply (proj1 (fetch_failure_classes Demo.down 0) "timed out").
    + intros j _. exists "timed out". now left.
    + reflexivity.
  - apply (proj1 (proj2 (fetch_failure_classes Demo.refusing 0))
             "connection reset").
    + intros j _. exists "connection reset". now right.
    + reflexivity.
  - apply (proj1 (proj2 (proj2 (fetch_failure_classes
                                  (Demo.slow Demo.bare_page) 0)))
             1 Demo.bare_page
             (ValueError "No assessment sections found on the page. The page structure might have changed.")).
    + unfold max_retries. lia.
    + intros j J. exists "timed out". left.
      destruct j as [|j]; [reflexivity|lia].
    + reflexivity.
    + reflexivity.
Defined.

(** C9 on the sample page and on a page whose only section has no
    heading. *)
Lemma extractor_records_valid_demo :
  (exists assessments,
      Some Demo.catalog = Some assessments /\ assessments <> []
      /\ Forall valid_record assessments)
  /\ extract_section Demo.nameless_tag = None
  /\ (valid_record Demo.java
      /\ exists section,
          In section Demo.tags /\ name Demo.java = section_name section
          /\ url Demo.java = section_url section)
  /\ scrape_shl_catalog (Demo.slow (Demo.page [Demo.nameless_tag])) 0
     = (inl (HTTPException 500
               "Failed to parse assessments: No valid assessments could be extracted from the page."),
        2).
Proof.
  split; [|split; [|split]].
  - apply (proj1 (extractor_records_valid (Demo.steady Demo.tags) 0)
             (Some Demo.catalog) 1).
    reflexivity.
  - apply (proj1 (proj2 (extractor_records_valid (Demo.steady Demo.tags) 0))).
    left. reflexivity.
  - apply (proj1 (proj2 (proj2 (extractor_records_valid
                                  (Demo.steady Demo.tags) 0)))
             Demo.tags Demo.java).
    right. left. reflexivity.
  - apply (proj2 (proj2 (proj2 (extractor_records_valid
                                  (Demo.slow (Demo.page [Demo.nameless_tag]))
                                  0)))
             1 (Demo.page [Demo.nameless_tag]) [Demo.nameless_tag]).
    + unfold max_retries. lia.
    + intros j J. exists "timed out". left.
      destruct j as [|j]; [reflexivity|lia].
    + reflexivity.
    + reflexivity.
    + reflexivity.
Defined.

(** ** The request handler, claim by claim *)

Lemma filter_assessments_zero ranked :
  filter_assessments (Some 0%Z) ranked = filter_assessments None ranked.
Proof.
  induction ranked as [|[sim a] rest IH]; simpl; [reflexivity|].
  now rewrite IH.
Qed.

Section HandlerClaims.

Variable net : nat -> exn + Soup.
Variable Vec : Type.
Variable encode : list string -> exn + list Vec.
Variable cosine : Vec -> Vec -> Q.

(** C8. A request whose text is empty or made of white space only fails
    with a 400, and the count of GETs is what it was: the catalogue is not
    fetched. *)
Theorem blank_text_rejected request g :
  blank (text request) ->
  recommend_assessments net Vec encode cosine request g
  = (inl (HTTPException 400 "Query text cannot be empty"), g).
Proof.
  intros B. unfold recommend_assessments, recommend_body, try_except.
  now rewrite (strip_blank _ B).
Qed.

(** C10. With [max_duration = 0] the handler does what it does without a
    constraint: the filtered set is the same, every candidate on or above
    the relevance floor is in it whatever its duration, the whole response
    is the same, and an empty filtered set gives the
    no-relevant-assessments message. *)
Theorem zero_max_duration_is_no_constraint :
  (forall ranked,
      filter_assessments (Some 0%Z) ranked = filter_assessments None ranked)
  /\ (forall ranked sim a,
         In (sim, a) ranked -> (1 # 10 <= sim)%Q ->
         In a (filter_assessments (Some 0%Z) ranked))
  /\ (forall txt results g,
         recommend_assessments net Vec encode cosine
           (mkQueryRequest txt results (Some 0%Z)) g
         = recommend_assessments net Vec encode cosine
             (mkQueryRequest txt results None) g)
  /\ (forall txt results g g' assessments q embs ranked,
         ~ blank txt ->
         scrape_shl_catalog net g = (inr (Some assessments), g') ->
         process_query Vec encode txt = inr q ->
         get_assessment_embeddings Vec encode assessments = inr embs ->
         rank (cosine_similarity Vec cosine q embs) assessments = inr ranked ->
         filter_assessments (Some 0%Z) ranked = [] ->
         recommend_assessments net Vec encode cosine
           (mkQueryRequest txt results (Some 0%Z)) g
         = (inl (HTTPException 404 no_relevant_message), g')).
Proof.
  split; [|split; [|split]].
  - apply filter_assessments_zero.
  - intros ranked sim a I L. apply filter_assessments_in. exists sim.
    split; [assumption|]. unfold keep. simpl.
    apply Qlt_bool_false in L. fold threshold in L. now rewrite L.
  - intros txt results g.
    unfold recommend_assessments, recommend_body, try_except, bind, lift.
    cbn [text max_duration max_results].
    destruct (negb (PyStr.truthy (PyStr.strip txt))); [reflexivity|].
    destruct (scrape_shl_catalog net g) as [[e|[[|a0 rest]|]] g1];
      try reflexivity.
    destruct (process_query Vec encode txt) as [e|q]; [reflexivity|].
    destruct (get_assessment_embeddings Vec encode (a0 :: rest)) as [e|embs];
      [reflexivity|].
    destruct (rank (cosine_similarity Vec cosine q embs) (a0 :: rest))
      as [e|ranked]; [reflexivity|].
    now rewrite filter_assessments_zero.
  - intros txt results g g' assessments q embs ranked B Hs Hq He Hr Hf.
    rewrite (recommend_ranked net Vec encode cosine
               (mkQueryRequest txt results (Some 0%Z)) g g' assessments q embs
               B Hs Hq He).
    cbn [max_duration]. now rewrite Hr, Hf.
Qed.

End HandlerClaims.

(** C8 on a text of three spaces, with a site that is down. *)
Lemma blank_text_rejected_demo :
  recommend_assessments Demo.down string Demo.encode Demo.cosine
    (mkQueryRequest "   " (Some 10%Z) None) 0
  = (inl (HTTPException 400 "Query text cannot be empty"), 0).
Proof.
  apply (blank_text_rejected Demo.down string Demo.encode Demo.cosine
           (mkQueryRequest "   " (Some 10%Z) None) 0).
  repeat constructor.
Defined.

(** C10 on the sample ranking and on a request that nothing matches. *)
Lemma zero_max_duration_is_no_constraint_demo :
  In Demo.java (filter_assessments (Some 0%Z) Demo.ranked)
  /\ recommend_assessments (Demo.steady [Demo.java_tag]) string Demo.encode
       Demo.faint (mkQueryRequest "Java developer" (Some 10%Z) (Some 0%Z)) 0
     = (inl (HTTPException 404 no_relevant_message), 1).
Proof.
  split.
  - apply (proj1 (proj2 (zero_max_duration_is_no_constraint
                           (Demo.steady [Demo.java_tag]) string Demo.encode
                           Demo.faint))
             Demo.ranked (9 # 10)%Q Demo.java).
    + left. reflexivity.
    + discriminate.
  - apply (proj2 (proj2 (proj2 (zero_max_duration_is_no_constraint
                                  (Demo.steady [Demo.java_tag]) string
                                  Demo.encode Demo.faint)))
             "Java developer" (Some 10%Z) 0 1 [Demo.java] "Java developer"
             [embedding_text Demo.java] [((1 # 20)%Q, Demo.java)]).
    + intros C. inversion C as [|? ? Hc Hr]. discriminate Hc.
    + reflexivity.
    + reflexivity.
    + reflexivity.
    + reflexivity.
    + reflexivity.
Defined.

(** * Further properties of the code *)

(** ** More on strings *)

Section MoreStringFacts.

Import PyStr.

Lemma append_assoc (a b c : string) :
  ((a ++ b) ++ c)%string = (a ++ b ++ c)%string.
Proof. induction a as [|x a IH]; simpl; [reflexivity|]. now rewrite IH. Qed.

Lemma append_nil_r (a : string) : (a ++ "")%string = a.
Proof. induction a as [|x a IH]; simpl; [reflexivity|]. now rewrite IH. Qed.

Lemma list_ascii_of_string_app (a b : string) :
  list_ascii_of_string (a ++ b)
  = list_ascii_of_string a ++ list_ascii_of_string b.
Proof. induction a as [|x a IH]; simpl; [reflexivity|]. now rewrite IH. Qed.

Lemma space_not_digit c : isspace c = true -> isdigit c = false.
Proof.
  destruct c as [[] [] [] [] [] [] [] []]; vm_compute; congruence.
Qed.

Lemma lower_m_not_digit c : lower_char c = "m"%char -> isdigit c = false.
Proof.
  destruct c as [[] [] [] [] [] [] [] []]; vm_compute; congruence.
Qed.

Lemma lstrip_head s c r : lstrip s = String c r -> isspace c = false.
Proof.
  induction s as [|c' r' IH]; simpl; [discriminate|].
  destruct (isspace c') eqn:E; [exact IH|].
  intros H; inversion H; subst; exact E.
Qed.

Lemma rstrip_head s c r : rstrip s = String c r -> exists r', s = String c r'.
Proof.
  destruct s as [|c' s']; simpl; [discriminate|].
  destruct (rstrip s'); [destruct (isspace c')|]; intros H; inversion H; eauto.
Qed.

Lemma append_last_inv (r : string) c x y :
  String x y = (r ++ String c "")%string ->
  (r = "" /\ x = c /\ y = "")
  \/ exists r', r = String x r' /\ y = (r' ++ String c "")%string.
Proof.
  destruct r as [|z r']; simpl; intros H; inversion H; subst; eauto.
Qed.

Lemma rstrip_last s r c :
  rstrip s = (r ++ String c "")%string -> isspace c = false.
Proof.
  revert r. induction s as [|a s' IH]; simpl; intros r H.
  - destruct r; discriminate.
  - destruct (rstrip s') as [|b t] eqn:E.
    + destruct (isspace a) eqn:Ha; [destruct r; discriminate|].
      apply append_last_inv in H. destruct H as [[_ [-> _]]|[r' [_ H]]].
      * exact Ha.
      * destruct r'; discriminate.
    + apply append_last_inv in H. destruct H as [[_ [_ H]]|[r' [_ H]]].
      * discriminate.
      * now apply (IH r').
Qed.

(** [s.strip()] has no white space at either end. *)
Lemma strip_trimmed s : trimmed (strip s).
Proof.
  unfold trimmed, strip. split.
  - intros c r H. apply rstrip_head in H. destruct H as [r' H].
    now apply lstrip_head in H.
  - intros r c H. now apply rstrip_last in H.
Qed.

Lemma span_spec p s a b :
  span p s = (a, b) ->
  s = (a ++ b)%string
  /\ Forall (fun c => p c = true) (list_ascii_of_string a)
  /\ (forall c r, b = String c r -> p c = false).
Proof.
  revert a b. induction s as [|x s IH]; simpl; intros a b H.
  - inversion H; subst. repeat split; [constructor | discriminate].
  - destruct (p x) eqn:Px.
    + destruct (span p s) as [a' b'] eqn:E. inversion H; subst.
      destruct (IH a' b eq_refl) as [-> [F N]].
      repeat split; [constructor; assumption | exact N].
    + inversion H; subst. repeat split; [constructor|].
      intros c r E. inversion E; subst. exact Px.
Qed.

Lemma span_exact p a b :
  Forall (fun c => p c = true) (list_ascii_of_string a) ->
  (forall c r, b = String c r -> p c = false) ->
  span p (a ++ b) = (a, b).
Proof.
  induction a as [|x a IH]; simpl; intros F N.
  - destruct b as [|c r]; simpl; [reflexivity|]. now rewrite (N c r eq_refl).
  - inversion F as [|? ? Px Fa]; subst. rewrite Px, (IH Fa N). reflexivity.
Qed.

(** [re.search(r'\d+')] on a text that starts with a run of digits. *)
Lemma search_digits_leading ds rest :
  digits ds ->
  (forall c r, rest = String c r -> isdigit c = false) ->
  search_digits (ds ++ rest) = Some ds.
Proof.
  intros [N F] R. destruct ds as [|x ds]; [congruence|].
  inversion F as [|? ? Px Fa]; subst.
  change (String x ds ++ rest)%string with (String x (ds ++ rest)).
  cbn [search_digits]. rewrite Px.
  change (String x (ds ++ rest)) with (String x ds ++ rest)%string.
  now rewrite (span_exact isdigit (String x ds) rest F R).
Qed.

Lemma prefix_lower_split p s :
  String.prefix p (lower s) = true ->
  exists u rest,
    s = (u ++ rest)%string /\ lower u = p
    /\ String.substring 0 (String.length p) s = u.
Proof.
  revert s. induction p as [|a p IH]; intros s H.
  - exists "", s. repeat split. now destruct s.
  - destruct s as [|b s]; simpl in H; [discriminate|].
    destruct (ascii_dec a (lower_char b)) as [E|E]; [|discriminate].
    destruct (IH s H) as [u [rest [Es [El Eu]]]].
    exists (String b u), rest. simpl. rewrite Eu. subst. auto.
Qed.

Lemma match_unit_spec s n :
  match_unit s = Some n ->
  exists u rest,
    s = (u ++ rest)%string /\ In (lower u) duration_units
    /\ String.substring 0 n s = u.
Proof.
  unfold match_unit, duration_units.
  destruct (String.prefix "minutes" (lower s)) eqn:P1;
    [|destruct (String.prefix "minute" (lower s)) eqn:P2;
      [|destruct (String.prefix "mins" (lower s)) eqn:P3;
        [|destruct (String.prefix "min" (lower s)) eqn:P4]]];
    intros H; inversion H; subst;
    match goal with
    | P : String.prefix _ (lower s) = true |- _ =>
        destruct (prefix_lower_split _ _ P) as [u [rest [Es [El Eu]]]]
    end;
    exists u, rest; rewrite El;
    (split; [exact Es|split; [simpl; tauto|exact Eu]]).
Qed.

Lemma unit_head u :
  In (lower u) duration_units -> exists c r, u = String c r /\ isdigit c = false.
Proof.
  destruct u as [|c r]; simpl.
  - intros [H|[H|[H|[H|[]]]]]; discriminate.
  - intros H. exists c, r. split; [reflexivity|].
    apply lower_m_not_digit.
    destruct H as [H|[H|[H|[H|[]]]]]; now inversion H.
Qed.

(** What a match of the duration pattern at the start of a text looks
    like. *)
Lemma match_duration_at_spec s m :
  match_duration_at s = Some m ->
  exists ds rest, s = (m ++ rest)%string /\ duration_text m ds.
Proof.
  unfold match_duration_at.
  destruct (span isdigit s) as [ds r1] eqn:S1.
  destruct (span_spec _ _ _ _ S1) as [E1 [F1 _]].
  destruct ds as [|x ds]; [discriminate|].
  destruct (span isspace r1) as [ws r2] eqn:S2.
  destruct (span_spec _ _ _ _ S2) as [E2 [F2 _]].
  destruct (match_unit r2) as [n|] eqn:U; [|discriminate].
  destruct (match_unit_spec _ _ U) as [u [rest [E3 [Iu Su]]]].
  intros H; inversion H; subst m. rewrite Su.
  exists (String x ds), rest. split.
  - rewrite E1, E2, E3. simpl. f_equal.
    now rewrite <- !append_assoc.
  - exists ws, u. repeat split; try assumption. discriminate.
Qed.

(** The duration the extractor finds is a piece of the text it searched,
    copied as it stands. *)
Lemma search_duration_spec s m :
  search_duration s = Some m ->
  exists pre post ds,
    s = (pre ++ m ++ post)%string /\ duration_text m ds.
Proof.
  induction s as [|c s IH].
  - simpl. discriminate.
  - cbn [search_duration].
    destruct (match_duration_at (String c s)) as [m'|] eqn:A.
    + intros H; inversion H; subst m'.
      destruct (match_duration_at_spec _ _ A) as [ds [rest [E D]]].
      exists "", rest, ds. now split.
    + intros H. destruct (IH H) as [pre [post [ds [E D]]]].
      exists (String c pre), post, ds. split; [|exact D].
      simpl. now rewrite E.
Qed.

(** The number the filter reads in a duration written by the extractor:
    the digits in front of the unit. *)
Lemma search_digits_duration_text d ds :
  duration_text d ds -> search_digits d = Some ds.
Proof.
  intros [ws [u [-> [D [B U]]]]].
  apply search_digits_leading; [exact D|].
  intros c r E. destruct ws as [|w ws]; simpl in E.
  - destruct (unit_head u U) as [c' [r' [-> N]]]. now inversion E; subst.
  - inversion E; subst. inversion B; subst. now apply space_not_digit.
Qed.

Lemma int_acc_nonneg s acc : (0 <= acc)%Z -> (0 <= int_acc acc s)%Z.
Proof.
  revert acc. induction s as [|c s IH]; cbn [int_acc]; intros acc H;
    [exact H|].
  apply IH. unfold digit_value. lia.
Qed.

End MoreStringFacts.

(** ** More on the catalogue extractor *)

(** X1. A section is kept exactly when its heading has a text that is not
    blank and its first link carries an [href], whatever the [href] is. *)
Theorem section_kept_iff section :
  (exists a, extract_section section = Some a)
  <-> ((exists t, name_elem section = Some t /\ ~ blank t)
       /\ exists href, url_elem section = Some (Some href)).
Proof.
  assert (U : forall href, url_elem section = Some (Some href) ->
                           section_url section <> "").
  { intros href E. unfold section_url. rewrite E.
    destruct (PyStr.startswith href "/"); [discriminate|].
    destruct (PyStr.startswith href "http") eqn:P; [|discriminate].
    intros ->. discriminate. }
  split.
  - intros [a E]. apply extract_section_some in E.
    destruct E as [[N V] [En Eu]]. rewrite En in N. rewrite Eu in V.
    unfold section_name in N. unfold section_url in V. split.
    + destruct (name_elem section) as [t|]; [|congruence].
      exists t. split; [reflexivity|]. intros B. now apply strip_blank in B.
    + destruct (url_elem section) as [[href|]|]; try congruence. eauto.
  - intros [[t [En B]] [href Eu]].
    destruct (extract_section section) as [a|] eqn:E; [eauto|].
    apply extract_section_none in E. destruct E as [E|E].
    + unfold section_name in E. rewrite En in E.
      apply strip_empty_iff in E. contradiction.
    + now apply U in Eu.
Qed.

Lemma section_url_absolute section :
  section_url section <> "" ->
  PyStr.startswith (section_url section) "http" = true.
Proof.
  unfold section_url. destruct (url_elem section) as [[href|]|];
    try (intros H; congruence).
  intros _. destruct (PyStr.startswith href "/"); [reflexivity|].
  destruct (PyStr.startswith href "http") eqn:P; [exact P|reflexivity].
Qed.

Lemma section_test_type_closed description nm :
  In (section_test_type description nm) test_types.
Proof.
  unfold section_test_type, test_types.
  repeat match goal with
         | |- context [if ?b then _ else _] => destruct b
         end; simpl; tauto.
Qed.

Lemma section_duration_spec description :
  (section_duration description = "Not specified"
   /\ PyStr.search_duration description = None)
  \/ exists pre post ds,
      description = (pre ++ section_duration description ++ post)%string
      /\ duration_text (section_duration description) ds.
Proof.
  unfold section_duration.
  destruct (PyStr.search_duration description) as [m|] eqn:E; [right|now left].
  now apply search_duration_spec.
Qed.

Lemma duration_value_text a ds :
  duration_text (duration a) ds
  -> duration_value a = Some (PyStr.int ds) /\ (0 <= PyStr.int ds)%Z.
Proof.
  intros D. unfold duration_value.
  rewrite (search_digits_duration_text _ _ D). split; [reflexivity|].
  now apply int_acc_nonneg.
Qed.

(** What one section gives to its record. *)
Lemma extract_section_fields section a :
  extract_section section = Some a ->
  a = mkAssessment (section_name section) (section_url section) true false
        (section_duration (section_description section))
        (section_test_type (section_description section)
           (section_name section)).
Proof.
  unfold extract_section.
  destruct (PyStr.truthy (section_name section)
            && PyStr.truthy (section_url section)); [|discriminate].
  now intros H; inversion H.
Qed.

Lemma parse_catalog_inv soup assessments :
  parse_catalog soup = inr assessments ->
  exists sections,
    find_assessment_sections soup = inr sections
    /\ assessments = extract_sections sections.
Proof.
  unfold parse_catalog.
  destruct (find_assessment_sections soup) as [e|sections]; [discriminate|].
  destruct (extract_sections sections) eqn:E; [discriminate|].
  intros H; inversion H; subst. eauto.
Qed.

(** X2. The selector cascade: the first pattern that matches anything gives the
    sections, the general search is the last resort, and the search fails
    exactly when nothing at all matches. *)
Theorem find_assessment_sections_cascade soup :
  (forall sections,
      find_assessment_sections soup = inr sections ->
      sections <> []
      /\ (sections = find_all_pattern soup 0
          \/ (find_all_pattern soup 0 = []
              /\ sections = find_all_pattern soup 1)
          \/ (find_all_pattern soup 0 = [] /\ find_all_pattern soup 1 = []
              /\ sections = find_all_pattern soup 2)
          \/ (find_all_pattern soup 0 = [] /\ find_all_pattern soup 1 = []
              /\ find_all_pattern soup 2 = []
              /\ sections = find_all_general soup)))
  /\ (forall e,
         find_assessment_sections soup = inl e <->
         (find_all_pattern soup 0 = [] /\ find_all_pattern soup 1 = []
          /\ find_all_pattern soup 2 = [] /\ find_all_general soup = []
          /\ e = ValueError "No assessment sections found on the page. The page structure might have changed.")).
Proof.
  unfold find_assessment_sections. simpl.
  destruct (find_all_pattern soup 0) as [|s0 l0];
    destruct (find_all_pattern soup 1) as [|s1 l1];
    destruct (find_all_pattern soup 2) as [|s2 l2];
    destruct (find_all_general soup) as [|s3 l3];
    (split;
     [intros sections H; inversion H; subst;
      (split; [discriminate|intuition (try reflexivity; try congruence)])
     |intros e; split;
      [intros H; inversion H; repeat split; reflexivity
      |intros (A & B & C & D & E); subst; try discriminate; reflexivity]]).
Qed.

Section MoreFetch.

Variable net : nat -> exn + Soup.

Lemma scrape_attempts_inv attempts g assessments g' :
  scrape_attempts net attempts g = (inr (Some assessments), g') ->
  exists k soup,
    k < List.length attempts /\ g' = g + k + 1
    /\ (forall j, j < k -> transient (net (g + j)))
    /\ net (g + k) = inr soup /\ parse_catalog soup = inr assessments.
Proof.
  revert g. induction attempts as [|attempt rest IH]; intros g.
  - simpl. unfold ret. discriminate.
  - rewrite scrape_attempts_cons.
    assert (K : transient (net g) ->
                scrape_attempts net rest (S g) = (inr (Some assessments), g') ->
                exists k soup,
                  k < List.length (attempt :: rest) /\ g' = g + k + 1
                  /\ (forall j, j < k -> transient (net (g + j)))
                  /\ net (g + k) = inr soup
                  /\ parse_catalog soup = inr assessments).
    { intros T H. destruct (IH _ H) as [k [soup [L [E [Tr [N P]]]]]].
      exists (S k), soup. simpl. repeat split; try lia.
      - intros j J. destruct j as [|j]; [now rewrite Nat.add_0_r|].
        replace (g + S j) with (S g + j) by lia. apply Tr. lia.
      - now replace (g + S k) with (S g + k) by lia.
      - exact P. }
    destruct (net g) as [e|soup] eqn:N.
    + destruct e; simpl; unfold raise; try discriminate;
        destruct (attempt =? 2); try discriminate;
        apply K; eexists; eauto.
    + destruct (parse_catalog soup) as [e|a] eqn:P.
      * destruct (parse_catalog_raises _ _ P) as [m ->]. simpl.
        unfold raise. discriminate.
      * intros H; inversion H; subst. exists 0, soup. simpl.
        rewrite Nat.add_0_r. repeat split; try lia; try assumption.
Qed.

(** X3. A catalogue that is returned is the extraction of the page of the last
    GET, in the order of its sections; every earlier GET of the call was
    a timeout or a network error. *)
Theorem fetch_returns_last_page g assessments g' :
  scrape_shl_catalog net g = (inr (Some assessments), g') ->
  exists k soup sections,
    k < max_retries /\ g' = g + k + 1
    /\ (forall j, j < k -> transient (net (g + j)))
    /\ net (g + k) = inr soup
    /\ find_assessment_sections soup = inr sections
    /\ assessments = extract_sections sections.
Proof.
  intros H. apply scrape_attempts_inv in H.
  destruct H as [k [soup [L [E [T [N P]]]]]].
  destruct (parse_catalog_inv _ _ P) as [sections [F A]].
  exists k, soup, sections. simpl in L.
  repeat split; try assumption.
Qed.

(** X4. The fetch returns on the first attempt whose page can be parsed: after
    [k] timeouts or network errors, a good page on attempt [k] ends the
    loop with its records, after [k + 1] GETs. *)
Theorem fetch_succeeds_after_retries g k soup assessments :
  k < max_retries ->
  (forall j, j < k -> transient (net (g + j))) ->
  net (g + k) = inr soup ->
  parse_catalog soup = inr assessments ->
  scrape_shl_catalog net g = (inr (Some assessments), g + k + 1).
Proof.
  intros K T N P.
  rewrite (scrape_shl_catalog_skip net k g K T), (scrape_attempts_at k K).
  rewrite scrape_attempts_cons, N, P. do 2 f_equal. lia.
Qed.

(** X5. An exception that is neither a [requests] one nor a [ValueError] ends
    the fetch on the attempt where it is raised, with a 500. *)
Theorem fetch_unexpected_error g k e :
  k < max_retries ->
  (forall j, j < k -> transient (net (g + j))) ->
  net (g + k) = inl e -> unexpected e ->
  scrape_shl_catalog net g
  = (inl (HTTPException 500
            ("Unexpected error while fetching assessments: "
               ++ str_exn e)%string), g + k + 1).
Proof.
  intros K T N U.
  rewrite (scrape_shl_catalog_skip net k g K T), (scrape_attempts_at k K).
  rewrite scrape_attempts_cons, N.
  destruct e; simpl in U; try contradiction; simpl; unfold raise;
    do 2 f_equal; lia.
Qed.

Lemma scrape_attempts_count attempts g r g' :
  scrape_attempts net attempts g = (r, g') ->
  g <= g' <= g + List.length attempts /\ (attempts <> [] -> g < g').
Proof.
  revert g. induction attempts as [|attempt rest IH]; intros g.
  - simpl. unfold ret. intros H; inversion H; subst.
    split; [lia|congruence].
  - rewrite scrape_attempts_cons.
    assert (K : forall e,
               handle_attempt_error attempt (scrape_attempts net rest) e (S g)
               = (r, g') ->
               g <= g' <= g + List.length (attempt :: rest)
               /\ (attempt :: rest <> [] -> g < g')).
    { intros e. simpl List.length.
      assert (R : forall x : exn + option (list Assessment),
                 (x, S g) = (r, g') ->
                 g <= g' <= g + S (List.length rest)
                 /\ (attempt :: rest <> [] -> g < g')).
      { intros x H. inversion H; subst. split; [lia|intros _; lia]. }
      assert (C : scrape_attempts net rest (S g) = (r, g') ->
                  g <= g' <= g + S (List.length rest)
                  /\ (attempt :: rest <> [] -> g < g')).
      { intros H. apply IH in H. split; [lia|intros _; lia]. }
      destruct e; simpl; unfold raise; try apply R;
        destruct (attempt =? 2); first [apply R|apply C]. }
    destruct (net g) as [e|soup]; [apply K|].
    destruct (parse_catalog soup) as [e|a]; [apply K|].
    intros H; inversion H; subst. simpl. split; [lia|intros _; lia].
Qed.

(** X6. The fetch sends at least one GET and at most three, whatever
    happens. *)
Theorem fetch_get_count g r g' :
  scrape_shl_catalog net g = (r, g') -> g + 1 <= g' <= g + max_retries.
Proof.
  intros H. apply scrape_attempts_count in H. simpl in H.
  destruct H as [H1 H2]. unfold max_retries.
  assert (g < g') by (apply H2; discriminate). lia.
Qed.

Lemma scrape_attempts_raises attempts g e g' :
  scrape_attempts net attempts g = (inl e, g') ->
  exists detail, e = HTTPException 500 detail \/ e = HTTPException 503 detail.
Proof.
  revert g. induction attempts as [|attempt rest IH]; intros g.
  - simpl. unfold ret. discriminate.
  - rewrite scrape_attempts_cons.
    assert (K : forall x,
               handle_attempt_error attempt (scrape_attempts net rest) x (S g)
               = (inl e, g') ->
               exists detail,
                 e = HTTPException 500 detail \/ e = HTTPException 503 detail).
    { intros x. destruct x; simpl; unfold raise;
        try (intros H; inversion H; eauto; fail);
        destruct (attempt =? 2);
        first [intros H; inversion H; eauto; fail | apply IH]. }
    destruct (net g) as [x|soup]; [apply K|].
    destruct (parse_catalog soup) as [x|a]; [apply K|discriminate].
Qed.

Ltac fetch_step g P :=
  rewrite scrape_attempts_cons;
  let e := fresh "e" in
  let soup := fresh "soup" in
  let m := fresh "m" in
  destruct (net g) as [e|soup];
  [destruct e
  |destruct (parse_catalog soup) as [e|?] eqn:P;
   [destruct (parse_catalog_raises _ _ P) as [m ->]|]];
  unfold handle_attempt_error; change (max_retries - 1) with 2;
  cbn [Nat.eqb]; unfold raise.

Ltac fetch_close :=
  solve [let H := fresh in
         intros H; inversion H; subst; eexists;
         first [left; reflexivity
               |right; split; [reflexivity|unfold max_retries; lia]]].

(** X7. The fetch raises nothing but an [HTTPException], with status 500 or
    503; a 503 comes only after the third GET. *)
Theorem fetch_raises_http_only g e g' :
  scrape_shl_catalog net g = (inl e, g') ->
  exists detail,
    e = HTTPException 500 detail
    \/ (e = HTTPException 503 detail /\ g' = g + max_retries).
Proof.
  unfold scrape_shl_catalog. change (seq 0 max_retries) with [0; 1; 2].
  fetch_step g P0; try fetch_close;
    fetch_step (S g) P1; try fetch_close;
    fetch_step (S (S g)) P2; fetch_close.
Qed.

End MoreFetch.

(** ** The records of a returned catalogue *)

Section CatalogRecords.

Variable net : nat -> exn + Soup.

Lemma catalog_records_from_sections g assessments g' a :
  scrape_shl_catalog net g = (inr (Some assessments), g') ->
  In a assessments ->
  exists section, extract_section section = Some a.
Proof.
  intros H I. apply scrape_attempts_inv in H.
  destruct H as [k [soup [_ [_ [_ [_ P]]]]]].
  apply parse_catalog_inv in P. destruct P as [sections [_ ->]].
  apply extract_sections_in in I. destruct I as [section [_ E]]. eauto.
Qed.

(** X8. Names and urls are normalised: a name has no white space at either
    end, a url starts with [http]. *)
Theorem catalog_names_and_urls g assessments g' :
  scrape_shl_catalog net g = (inr (Some assessments), g') ->
  Forall (fun a => trimmed (name a)
                   /\ PyStr.startswith (url a) "http" = true) assessments.
Proof.
  intros H. apply Forall_forall. intros a I.
  destruct (catalog_records_from_sections _ _ _ _ H I) as [section E].
  pose proof (extract_section_some _ _ E) as [[_ U] [En Eu]].
  rewrite En, Eu in *. split.
  - unfold section_name. destruct (name_elem section).
    + apply strip_trimmed.
    + split; intros; [discriminate|]. destruct r; discriminate.
  - now apply section_url_absolute.
Qed.

(** X9. The fields the page is not read for: every record says that remote
    testing is supported and adaptive testing is not, and its test type is
    one of Cognitive, Personality, Skills and General. *)
Theorem catalog_fixed_fields g assessments g' :
  scrape_shl_catalog net g = (inr (Some assessments), g') ->
  Forall (fun a => remote_testing a = true /\ adaptive_support a = false
                   /\ In (test_type a) test_types) assessments.
Proof.
  intros H. apply Forall_forall. intros a I.
  destruct (catalog_records_from_sections _ _ _ _ H I) as [section E].
  apply extract_section_fields in E. subst a. cbn [remote_testing
    adaptive_support test_type]. repeat split.
  apply section_test_type_closed.
Qed.

(** X10. The extractor and the filter agree on durations: the filter finds no
    number in a record exactly when the extractor wrote the marker for a
    missing duration, and otherwise reads the digits that stand in front
    of the unit. *)
Theorem catalog_durations_parse g assessments g' :
  scrape_shl_catalog net g = (inr (Some assessments), g') ->
  Forall (fun a =>
            (duration a = "Not specified" /\ duration_value a = None)
            \/ exists ds,
                duration_text (duration a) ds
                /\ duration_value a = Some (PyStr.int ds)
                /\ (0 <= PyStr.int ds)%Z) assessments.
Proof.
  intros H. apply Forall_forall. intros a I.
  destruct (catalog_records_from_sections _ _ _ _ H I) as [section E].
  apply extract_section_fields in E.
  destruct (section_duration_spec (section_description section))
    as [[N _]|[pre [post [ds [_ D]]]]].
  - left. subst a. cbn [duration]. split; [exact N|].
    unfold duration_value. cbn [duration]. now rewrite N.
  - right. exists ds.
    assert (D' : duration_text (duration a) ds) by (subst a; exact D).
    split; [exact D'|]. now apply duration_value_text.
Qed.

End CatalogRecords.

(** X11. The duration of a record is the marker for a missing one, exactly when
    the pattern matches nowhere, or a piece of the section's description
    copied as it stands: digits, white space if any, and min, mins, minute
    or minutes in any case. *)
Theorem duration_copied_from_description section a :
  extract_section section = Some a ->
  (duration a = "Not specified"
   /\ PyStr.search_duration (section_description section) = None)
  \/ exists pre post ds,
      section_description section = (pre ++ duration a ++ post)%string
      /\ duration_text (duration a) ds.
Proof.
  intros E. apply extract_section_fields in E. subst a. cbn [duration].
  apply section_duration_spec.
Qed.

Lemma catalog_names_and_urls_demo :
  Forall (fun a => trimmed (name a)
                   /\ PyStr.startswith (url a) "http" = true) Demo.catalog.
Proof.
  apply (catalog_names_and_urls (Demo.steady Demo.tags) 0 Demo.catalog 1).
  reflexivity.
Defined.

Lemma catalog_fixed_fields_demo :
  Forall (fun a => remote_testing a = true /\ adaptive_support a = false
                   /\ In (test_type a) test_types) Demo.catalog.
Proof.
  apply (catalog_fixed_fields (Demo.steady Demo.tags) 0 Demo.catalog 1).
  reflexivity.
Defined.

Lemma catalog_durations_parse_demo :
  Forall (fun a =>
            (duration a = "Not specified" /\ duration_value a = None)
            \/ exists ds,
                duration_text (duration a) ds
                /\ duration_value a = Some (PyStr.int ds)
                /\ (0 <= PyStr.int ds)%Z) Demo.catalog.
Proof.
  apply (catalog_durations_parse (Demo.steady Demo.tags) 0 Demo.catalog 1).
  reflexivity.
Defined.

Lemma duration_copied_from_description_demo :
  (duration Demo.java = "Not specified"
   /\ PyStr.search_duration (section_description Demo.java_tag) = None)
  \/ exists pre post ds,
      section_description Demo.java_tag
      = (pre ++ duration Demo.java ++ post)%string
      /\ duration_text (duration Demo.java) ds.
Proof.
  apply (duration_copied_from_description Demo.java_tag Demo.java).
  reflexivity.
Defined.

Lemma fetch_returns_last_page_demo :
  exists k soup sections,
    k < max_retries /\ 2 = 0 + k + 1
    /\ (forall j, j < k ->
                  transient (Demo.slow (Demo.page Demo.tags) (0 + j)))
    /\ Demo.slow (Demo.page Demo.tags) (0 + k) = inr soup
    /\ find_assessment_sections soup = inr sections
    /\ Demo.catalog = extract_sections sections.
Proof.
  apply (fetch_returns_last_page (Demo.slow (Demo.page Demo.tags)) 0
           Demo.catalog 2).
  reflexivity.
Defined.

Lemma fetch_succeeds_after_retries_demo :
  scrape_shl_catalog (Demo.slow (Demo.page Demo.tags)) 0
  = (inr (Some Demo.catalog), 0 + 1 + 1).
Proof.
  apply (fetch_succeeds_after_retries (Demo.slow (Demo.page Demo.tags)) 0 1
           (Demo.page Demo.tags) Demo.catalog).
  - unfold max_retries. lia.
  - intros j J. exists "timed out". left.
    destruct j as [|j]; [reflexivity|lia].
  - reflexivity.
  - reflexivity.
Defined.

Lemma fetch_unexpected_error_demo :
  scrape_shl_catalog Demo.crashing 0
  = (inl (HTTPException 500
            ("Unexpected error while fetching assessments: "
               ++ str_exn (OtherException "maximum recursion depth exceeded"))%string),
     0 + 0 + 1).
Proof.
  apply (fetch_unexpected_error Demo.crashing 0 0
           (OtherException "maximum recursion depth exceeded")).
  - unfold max_retries. lia.
  - intros j J. lia.
  - reflexivity.
  - exact I.
Defined.

Lemma fetch_get_count_demo :
  0 + 1 <= 3 <= 0 + max_retries.
Proof.
  apply (fetch_get_count Demo.down 0
           (inl (HTTPException 503
                   "Failed to fetch assessments: Connection timeout. Please try again later."))
           3).
  reflexivity.
Defined.

Lemma fetch_raises_http_only_demo :
  exists detail,
    HTTPException 503 "Failed to fetch assessments: Network error - connection reset"
    = HTTPException 500 detail
    \/ (HTTPException 503 "Failed to fetch assessments: Network error - connection reset"
        = HTTPException 503 detail /\ 3 = 0 + max_retries).
Proof.
  apply (fetch_raises_http_only Demo.refusing 0
           (HTTPException 503
              "Failed to fetch assessments: Network error - connection reset")
           3).
  reflexivity.
Defined.

(** ** More on the request handler *)

Lemma in_slice_to {A} (l : list A) stop x : In x (slice_to l stop) -> In x l.
Proof.
  unfold slice_to. destruct stop as [k|]; [|auto].
  destruct (0 <=? k)%Z; apply in_firstn.
Qed.

Lemma slice_to_prefix {A} (l : list A) stop :
  exists rest, l = slice_to l stop ++ rest.
Proof.
  unfold slice_to. destruct stop as [k|]; [|exists []; now rewrite app_nil_r].
  destruct (0 <=? k)%Z; eexists; symmetry; apply firstn_skipn.
Qed.

Lemma slice_to_length {A} (l : list A) stop :
  Z.of_nat (List.length (slice_to l stop))
  = slice_length (Z.of_nat (List.length l)) stop.
Proof.
  unfold slice_to, slice_length. destruct stop as [k|]; [|reflexivity].
  destruct (Z.leb_spec 0 k), (Z.ltb_spec k 0); try lia;
    rewrite length_firstn; lia.
Qed.

Section MoreHandler.

Variable net : nat -> exn + Soup.
Variable Vec : Type.
Variable encode : list string -> exn + list Vec.
Variable cosine : Vec -> Vec -> Q.

(** The handler once the text is accepted and the fetch has failed. *)
Lemma recommend_fetch_failed request g e g' :
  ~ blank (text request) ->
  scrape_shl_catalog net g = (inl e, g') ->
  recommend_assessments net Vec encode cosine request g = (inl e, g').
Proof.
  intros B Hs.
  assert (Hb : PyStr.truthy (PyStr.strip (text request)) = true).
  { apply truthy_true. intros C. apply B. now apply strip_empty_iff. }
  destruct (scrape_attempts_raises _ _ _ _ _ Hs) as [d [->| ->]];
    unfold recommend_assessments, recommend_body;
    rewrite Hb; simpl negb; cbv iota; unfold try_except, bind;
    rewrite Hs; reflexivity.
Qed.

(** The handler once the catalogue is there and an encoding has failed. *)
Lemma recommend_encoding_failed request g g' assessments :
  ~ blank (text request) ->
  scrape_shl_catalog net g = (inr (Some assessments), g') ->
  (forall e,
      process_query Vec encode (text request) = inl e ->
      recommend_assessments net Vec encode cosine request g
      = (inl (HTTPException 500
                ("Error processing query: " ++ str_exn e)%string), g'))
  /\ (forall q e,
         process_query Vec encode (text request) = inr q ->
         get_assessment_embeddings Vec encode assessments = inl e ->
         recommend_assessments net Vec encode cosine request g
         = (inl (HTTPException 500
                   ("Error generating assessment embeddings: "
                      ++ str_exn e)%string), g')).
Proof.
  intros B Hs.
  assert (Hb : PyStr.truthy (PyStr.strip (text request)) = true).
  { apply truthy_true. intros C. apply B. now apply strip_empty_iff. }
  destruct (scrape_shl_catalog_returns _ _ _ _ Hs) as [a [Ea [Na _]]].
  inversion Ea; subst a. clear Ea.
  destruct assessments as [|a0 rest]; [congruence|].
  split; [intros e Hq | intros q e Hq He];
    unfold recommend_assessments, recommend_body;
    rewrite Hb; simpl negb; cbv iota; unfold try_except, bind, lift;
    rewrite Hs, Hq; [|rewrite He]; reflexivity.
Qed.

(** Every way the handler ends, read backwards from its result. *)
Lemma recommend_inv request g r g' :
  recommend_assessments net Vec encode cosine request g = (r, g') ->
  (blank (text request) /\ g' = g
   /\ r = inl (HTTPException 400 "Query text cannot be empty"))
  \/ (~ blank (text request)
      /\ ((exists e, scrape_shl_catalog net g = (inl e, g') /\ r = inl e)
          \/ exists assessments,
              scrape_shl_catalog net g = (inr (Some assessments), g')
              /\ ((exists e,
                      process_query Vec encode (text request) = inl e
                      /\ r = inl (HTTPException 500
                                    ("Error processing query: "
                                       ++ str_exn e)%string))
                  \/ exists q,
                      process_query Vec encode (text request) = inr q
                      /\ ((exists e,
                              get_assessment_embeddings Vec encode assessments
                              = inl e
                              /\ r = inl (HTTPException 500
                                            ("Error generating assessment embeddings: "
                                               ++ str_exn e)%string))
                          \/ exists embs,
                              get_assessment_embeddings Vec encode assessments
                              = inr embs
                              /\ r = fst (recommend_assessments net Vec encode
                                            cosine request g))))).
Proof.
  intros H.
  assert (R : r = fst (recommend_assessments net Vec encode cosine request g))
    by now rewrite H.
  destruct (PyStr.strip (text request)) as [|c0 s0] eqn:S.
  - left. unfold recommend_assessments, recommend_body, try_except in H.
    rewrite S in H. simpl in H. unfold raise in H.
    apply strip_empty_iff in S. inversion H; subst. auto.
  - right.
    assert (B : ~ blank (text request)).
    { intros C. apply strip_blank in C. congruence. }
    split; [exact B|].
    destruct (scrape_shl_catalog net g) as [[e|scraped] g1] eqn:Hs.
    + left. rewrite (recommend_fetch_failed request g e g1 B Hs) in H.
      inversion H; subst. eauto.
    + right.
      destruct (scrape_shl_catalog_returns _ _ _ _ Hs) as [a [-> _]].
      destruct (recommend_encoding_failed request g g1 a B Hs) as [F1 F2].
      destruct (process_query Vec encode (text request)) as [e|q] eqn:Hq.
      * rewrite (F1 e eq_refl) in H. inversion H; subst.
        exists a. split; [reflexivity|]. left. eauto.
      * destruct (get_assessment_embeddings Vec encode a) as [e|embs] eqn:He.
        -- rewrite (F2 q e eq_refl eq_refl) in H. inversion H; subst.
           exists a. split; [reflexivity|]. right. exists q.
           split; [reflexivity|]. left. exists e. split; [exact He|reflexivity].
        -- rewrite (recommend_ranked net Vec encode cosine request g g1 a q
                      embs B Hs Hq He) in H.
           assert (G : g1 = g').
           { destruct (rank (cosine_similarity Vec cosine q embs) a);
               [|destruct (filter_assessments (max_duration request) l)];
               now inversion H. }
           subst g1. exists a. split; [reflexivity|]. right. exists q.
           split; [reflexivity|]. right. exists embs.
           split; [exact He|exact R].
Qed.

(** A response that is returned, read backwards. *)
Lemma recommend_returns_inv request g response g' :
  recommend_assessments net Vec encode cosine request g = (inr response, g') ->
  ~ blank (text request)
  /\ exists assessments q embs ranked,
      scrape_shl_catalog net g = (inr (Some assessments), g')
      /\ process_query Vec encode (text request) = inr q
      /\ get_assessment_embeddings Vec encode assessments = inr embs
      /\ rank (cosine_similarity Vec cosine q embs) assessments = inr ranked
      /\ filter_assessments (max_duration request) ranked <> []
      /\ response
         = mkResponse (slice_to (filter_assessments (max_duration request)
                                   ranked) (max_results request)).
Proof.
  intros H. pose proof H as H0. apply recommend_inv in H.
  destruct H as [[_ [_ C]]|[B H]]; [discriminate|]. split; [exact B|].
  destruct H as [[e [Hs C]]|[a [Hs H]]]; [discriminate|].
  destruct H as [[e [_ C]]|[q [Hq H]]]; [discriminate|].
  destruct H as [[e [_ C]]|[embs [He _]]]; [discriminate|].
  rewrite (recommend_ranked net Vec encode cosine request g g' a q embs
             B Hs Hq He) in H0.
  destruct (rank (cosine_similarity Vec cosine q embs) a) as [e|ranked] eqn:R;
    [discriminate|].
  exists a, q, embs, ranked. repeat split; try assumption.
  - intros C. rewrite C in H0. discriminate.
  - destruct (filter_assessments (max_duration request) ranked);
      [discriminate|]. now inversion H0.
Qed.

End MoreHandler.

(** ** The request handler: failures *)

Section HandlerFailures.

Variable net : nat -> exn + Soup.
Variable Vec : Type.
Variable encode : list string -> exn + list Vec.
Variable cosine : Vec -> Vec -> Q.

(** X12. When the fetch fails, the handler fails with the very exception of the
    fetch, a 500 or a 503 with its detail, and sends no further GET. *)
Theorem fetch_failure_passes_through request g e g' :
  ~ blank (text request) ->
  scrape_shl_catalog net g = (inl e, g') ->
  recommend_assessments net Vec encode cosine request g = (inl e, g')
  /\ exists detail,
      e = HTTPException 500 detail \/ e = HTTPException 503 detail.
Proof.
  intros B Hs. split.
  - now apply recommend_fetch_failed.
  - now apply scrape_attempts_raises in Hs.
Qed.

(** X13. When the encoder fails, on the query or on the catalogue, the handler
    answers 500 and says which of the two failed. *)
Theorem encoding_failure_answers_500 request g g' assessments e :
  ~ blank (text request) ->
  scrape_shl_catalog net g = (inr (Some assessments), g') ->
  process_query Vec encode (text request) = inl e
  \/ (exists q, process_query Vec encode (text request) = inr q
                /\ get_assessment_embeddings Vec encode assessments = inl e) ->
  exists detail,
    recommend_assessments net Vec encode cosine request g
    = (inl (HTTPException 500 detail), g')
    /\ (process_query Vec encode (text request) = inl e ->
        detail = ("Error processing query: " ++ str_exn e)%string)
    /\ (forall q, process_query Vec encode (text request) = inr q ->
                  detail = ("Error generating assessment embeddings: "
                              ++ str_exn e)%string).
Proof.
  intros B Hs H.
  destruct (recommend_encoding_failed net Vec encode cosine request g g'
              assessments B Hs) as [F1 F2].
  destruct H as [Hq|[q [Hq He]]].
  - exists ("Error processing query: " ++ str_exn e)%string.
    split; [now apply F1|]. split; [reflexivity|].
    intros q C. congruence.
  - exists ("Error generating assessment embeddings: " ++ str_exn e)%string.
    split; [now apply (F2 q)|]. split; [congruence|reflexivity].
Qed.

Lemma recommend_raises request g e g' :
  recommend_assessments net Vec encode cosine request g = (inl e, g') ->
  exists status detail,
    e = HTTPException status detail /\ In status failure_statuses.
Proof.
  intros H. pose proof H as H0. apply recommend_inv in H.
  unfold failure_statuses.
  destruct H as [[_ [_ C]]|[B H]].
  { inversion C. do 2 eexists. split; [reflexivity|simpl; tauto]. }
  destruct H as [[x [Hs C]]|[a [Hs H]]].
  { inversion C; subst x. apply scrape_attempts_raises in Hs.
    destruct Hs as [d [->| ->]]; do 2 eexists;
      (split; [reflexivity|simpl; tauto]). }
  destruct H as [[x [_ C]]|[q [Hq H]]].
  { inversion C. do 2 eexists. split; [reflexivity|simpl; tauto]. }
  destruct H as [[x [_ C]]|[embs [He _]]].
  { inversion C. do 2 eexists. split; [reflexivity|simpl; tauto]. }
  rewrite (recommend_ranked net Vec encode cosine request g g' a q embs
             B Hs Hq He) in H0.
  destruct (rank (cosine_similarity Vec cosine q embs) a) as [x|ranked].
  - inversion H0. do 2 eexists. split; [reflexivity|simpl; tauto].
  - destruct (filter_assessments (max_duration request) ranked).
    + inversion H0. do 2 eexists. split; [reflexivity|simpl; tauto].
    + discriminate.
Qed.

(** X14. The handler lets no raw exception out: what it raises is an
    [HTTPException] whose status is 400, 404, 500 or 503, and the status is
    400 exactly when the text is blank. *)
Theorem recommend_error_statuses request g e g' :
  recommend_assessments net Vec encode cosine request g = (inl e, g') ->
  exists status detail,
    e = HTTPException status detail /\ In status failure_statuses
    /\ (status = 400%Z <-> blank (text request)).
Proof.
  intros H. destruct (recommend_raises _ _ _ _ H) as [status [detail [-> I]]].
  exists status, detail. split; [reflexivity|]. split; [exact I|].
  pose proof H as H0. apply recommend_inv in H.
  destruct H as [[B [_ C]]|[B H]].
  { inversion C. tauto. }
  split; [|contradiction]. intros ->. exfalso.
  destruct H as [[x [Hs C]]|[a [Hs H]]].
  { inversion C; subst x. apply scrape_attempts_raises in Hs.
    destruct Hs as [d [Hs|Hs]]; discriminate. }
  destruct H as [[x [_ C]]|[q [Hq H]]]; [discriminate|].
  destruct H as [[x [_ C]]|[embs [He _]]]; [discriminate|].
  rewrite (recommend_ranked net Vec encode cosine request g g' a q embs
             B Hs Hq He) in H0.
  destruct (rank (cosine_similarity Vec cosine q embs) a) as [x|ranked];
    [discriminate|].
  destruct (filter_assessments (max_duration request) ranked); discriminate.
Qed.

(** X15. One request costs at most three GETs, and none exactly when its text
    is blank. *)
Theorem recommend_get_count request g r g' :
  recommend_assessments net Vec encode cosine request g = (r, g') ->
  g <= g' <= g + max_retries /\ (g' = g <-> blank (text request)).
Proof.
  intros H. apply recommend_inv in H.
  assert (K : forall x, scrape_shl_catalog net g = (x, g') ->
                        g + 1 <= g' <= g + max_retries).
  { intros x Hs. apply scrape_attempts_count in Hs. simpl in Hs.
    destruct Hs as [H1 H2]. unfold max_retries.
    assert (g < g') by (apply H2; discriminate). lia. }
  destruct H as [[B [-> _]]|[B H]].
  - split; [lia|tauto].
  - assert (L : g + 1 <= g' <= g + max_retries).
    { destruct H as [[x [Hs _]]|[a [Hs _]]]; eapply K; eauto. }
    split; [lia|]. split; [lia|contradiction].
Qed.

End HandlerFailures.

Lemma fetch_failure_passes_through_demo :
  recommend_assessments Demo.down string Demo.encode Demo.cosine
    (mkQueryRequest "Java developer" (Some 10%Z) None) 0
  = (inl (HTTPException 503
            "Failed to fetch assessments: Connection timeout. Please try again later."),
     3)
  /\ exists detail,
      HTTPException 503
        "Failed to fetch assessments: Connection timeout. Please try again later."
      = HTTPException 500 detail
      \/ HTTPException 503
           "Failed to fetch assessments: Connection timeout. Please try again later."
         = HTTPException 503 detail.
Proof.
  apply (fetch_failure_passes_through Demo.down string Demo.encode
           Demo.cosine (mkQueryRequest "Java developer" (Some 10%Z) None) 0
           (HTTPException 503
              "Failed to fetch assessments: Connection timeout. Please try again later.")
           3).
  - intros C. inversion C as [|? ? Hc Hr]. discriminate Hc.
  - reflexivity.
Defined.

Lemma encoding_failure_answers_500_demo :
  exists detail,
    recommend_assessments (Demo.steady Demo.tags) string Demo.no_batch
      Demo.cosine (mkQueryRequest "Java developer" (Some 10%Z) None) 0
    = (inl (HTTPException 500 detail), 1)
    /\ (process_query string Demo.no_batch "Java developer"
        = inl (OtherException "CUDA out of memory") ->
        detail = ("Error processing query: "
                    ++ str_exn (OtherException "CUDA out of memory"))%string)
    /\ (forall q, process_query string Demo.no_batch "Java developer" = inr q ->
                  detail = ("Error generating assessment embeddings: "
                              ++ str_exn (OtherException "CUDA out of memory"))%string).
Proof.
  apply (encoding_failure_answers_500 (Demo.steady Demo.tags) string
           Demo.no_batch Demo.cosine
           (mkQueryRequest "Java developer" (Some 10%Z) None) 0 1
           Demo.catalog (OtherException "CUDA out of memory")).
  - intros C. inversion C as [|? ? Hc Hr]. discriminate Hc.
  - reflexivity.
  - right. exists "Java developer". split; reflexivity.
Defined.

Lemma recommend_error_statuses_demo :
  exists status detail,
    HTTPException 500
      "Error processing query: CUDA out of memory"
    = HTTPException status detail /\ In status failure_statuses
    /\ (status = 400%Z <-> blank "Java developer").
Proof.
  apply (recommend_error_statuses (Demo.steady Demo.tags) string
           Demo.exhausted Demo.cosine
           (mkQueryRequest "Java developer" (Some 10%Z) None) 0
           (HTTPException 500 "Error processing query: CUDA out of memory")
           1).
  reflexivity.
Defined.

Lemma recommend_get_count_demo :
  0 <= 2 <= 0 + max_retries
  /\ (2 = 0 <-> blank "Java developer").
Proof.
  apply (recommend_get_count (Demo.slow (Demo.page Demo.tags)) string
           Demo.encode Demo.cosine
           (mkQueryRequest "Java developer" (Some 1%Z) None) 0
           (inr (mkResponse [Demo.java])) 2).
  reflexivity.
Defined.

(** ** The request handler: responses *)

Lemma keep_true max_duration sim a :
  keep max_duration (sim, a) = true <->
  (1 # 10 <= sim)%Q /\ passes_duration max_duration a = true.
Proof.
  unfold keep. simpl fst; simpl snd. rewrite andb_true_iff, negb_true_iff.
  now rewrite Qlt_bool_false.
Qed.

Lemma duration_value_nonneg a d : duration_value a = Some d -> (0 <= d)%Z.
Proof.
  unfold duration_value.
  destruct (PyStr.search_digits (duration a)); [|discriminate].
  intros H; inversion H. now apply int_acc_nonneg.
Qed.

Lemma duration_value_none a : duration_value a = None <-> digitless (duration a).
Proof.
  unfold duration_value. split.
  - destruct (PyStr.search_digits (duration a)) eqn:E; [discriminate|].
    intros _. now apply search_digits_none.
  - intros D. now rewrite (search_digits_digitless _ D).
Qed.

Lemma slice_to_map {A B} (f : A -> B) l stop :
  slice_to (map f l) stop = map f (slice_to l stop).
Proof.
  unfold slice_to. destruct stop as [k|]; [|reflexivity].
  rewrite length_map. destruct (0 <=? k)%Z; apply firstn_map.
Qed.

Lemma StronglySorted_slice_to {A} (R : A -> A -> Prop) l stop :
  StronglySorted R l -> StronglySorted R (slice_to l stop).
Proof.
  unfold slice_to. destruct stop as [k|]; [|auto].
  destruct (0 <=? k)%Z; apply StronglySorted_firstn.
Qed.

(** X16. A negative [max_duration] counts as a constraint that no number
    meets: of the candidates on or above the relevance floor, only those
    whose duration holds no digit are kept. *)
Theorem negative_max_duration_keeps_unknown_only m ranked a :
  (m < 0)%Z ->
  In a (filter_assessments (Some m) ranked) <->
  exists sim,
    In (sim, a) ranked /\ (1 # 10 <= sim)%Q /\ digitless (duration a).
Proof.
  intros M. rewrite filter_assessments_in.
  assert (P : passes_duration (Some m) a = true <-> digitless (duration a)).
  { unfold passes_duration, duration_constraint.
    destruct (Z.eqb_spec m 0); [lia|]. rewrite <- duration_value_none.
    destruct (duration_value a) as [d|] eqn:D.
    - apply duration_value_nonneg in D. split; [|discriminate].
      intros L. apply Z.leb_le in L. lia.
    - tauto. }
  split; intros [sim [I K]]; exists sim.
  - apply keep_true in K. tauto.
  - split; [tauto|]. apply keep_true. tauto.
Qed.

(** X17. Ranking returns exactly when no two candidates have the same score and
    different records; when it fails, it fails with the [TypeError] of the
    record comparison. *)
Theorem rank_returns_iff similarities assessments :
  ((exists ranked, rank similarities assessments = inr ranked)
   <-> ties_agree (combine similarities assessments))
  /\ forall e, rank similarities assessments = inl e ->
               e = TypeError no_lt_msg.
Proof.
  unfold rank. split.
  - apply list_sort_reverse_succeeds_iff.
  - intros e H. now apply list_sort_reverse_raises in H.
Qed.

(** X18. When ranking returns, it returns the same candidates by non-increasing
    score, those of one score in the order of the catalogue. *)
Theorem rank_stable_descending similarities assessments ranked :
  rank similarities assessments = inr ranked ->
  Permutation (combine similarities assessments) ranked
  /\ StronglySorted by_score_desc ranked
  /\ forall q, scored q ranked = scored q (combine similarities assessments).
Proof.
  unfold rank. intros H. apply list_sort_reverse_ok in H.
  destruct H as [S [P [_ Q']]]. auto.
Qed.

Section HandlerResponses.

Variable net : nat -> exn + Soup.
Variable Vec : Type.
Variable encode : list string -> exn + list Vec.
Variable cosine : Vec -> Vec -> Q.

(** X19. Whatever [max_results] is, every record of a response is a valid
    record of the catalogue just fetched, scored at least 0.10 against the
    query, and within a non-zero [max_duration] whenever its duration can
    be read. *)
Theorem recommendations_sound request g response g' :
  recommend_assessments net Vec encode cosine request g = (inr response, g') ->
  exists assessments q embs,
    scrape_shl_catalog net g = (inr (Some assessments), g')
    /\ process_query Vec encode (text request) = inr q
    /\ get_assessment_embeddings Vec encode assessments = inr embs
    /\ forall a,
        In a (recommendations response) ->
        In a assessments /\ valid_record a
        /\ exists sim,
            In (sim, a)
              (combine (cosine_similarity Vec cosine q embs) assessments)
            /\ (1 # 10 <= sim)%Q
            /\ forall m d,
                max_duration request = Some m -> m <> 0%Z ->
                duration_value a = Some d -> (d <= m)%Z.
Proof.
  intros H. apply recommend_returns_inv in H.
  destruct H as [B [assessments [q [embs [ranked [Hs [Hq [He [Hr [_ ->]]]]]]]]]].
  exists assessments, q, embs.
  split; [exact Hs|]. split; [exact Hq|]. split; [exact He|].
  intros a H. cbn [recommendations] in H. apply in_slice_to in H.
  apply filter_assessments_in in H. destruct H as [sim [I K]].
  unfold rank in Hr. apply list_sort_reverse_ok in Hr.
  destruct Hr as [_ [P _]].
  apply (Permutation_in _ (Permutation_sym P)) in I.
  split; [|split].
  - now apply in_combine_r in I.
  - apply in_combine_r in I.
    destruct (scrape_shl_catalog_returns _ _ _ _ Hs) as [x [E [_ V]]].
    inversion E; subst x. rewrite Forall_forall in V. now apply V.
  - exists sim. apply keep_true in K. destruct K as [L D].
    repeat split; try assumption.
    intros m d Em Nm Ed. unfold passes_duration, duration_constraint in D.
    rewrite Em, Ed in D. destruct (Z.eqb_spec m 0); [contradiction|].
    now apply Z.leb_le.
Qed.

(** X20. Whatever [max_results] is, a response is a prefix of the filtered set,
    so it comes by non-increasing score; it has all the entries without
    [max_results], the first [k] for [k >= 0], and all but the last [-k]
    for a negative [k]. *)
Theorem response_is_prefix request g response g' :
  recommend_assessments net Vec encode cosine request g = (inr response, g') ->
  exists assessments q embs ranked picked rest,
    scrape_shl_catalog net g = (inr (Some assessments), g')
    /\ process_query Vec encode (text request) = inr q
    /\ get_assessment_embeddings Vec encode assessments = inr embs
    /\ rank (cosine_similarity Vec cosine q embs) assessments = inr ranked
    /\ filter_assessments (max_duration request) ranked
       = recommendations response ++ rest
    /\ Z.of_nat (List.length (recommendations response))
       = slice_length
           (Z.of_nat (List.length
                        (filter_assessments (max_duration request) ranked)))
           (max_results request)
    /\ recommendations response = map snd picked
    /\ StronglySorted by_score_desc picked
    /\ incl picked ranked.
Proof.
  intros H. apply recommend_returns_inv in H.
  destruct H as [B [assessments [q [embs [ranked [Hs [Hq [He [Hr [_ ->]]]]]]]]]].
  cbn [recommendations].
  destruct (slice_to_prefix (filter_assessments (max_duration request) ranked)
              (max_results request)) as [rest E].
  exists assessments, q, embs, ranked,
    (slice_to (filter (keep (max_duration request)) ranked)
       (max_results request)), rest.
  repeat split; try assumption.
  - apply slice_to_length.
  - now rewrite filter_assessments_keep, slice_to_map.
  - apply StronglySorted_slice_to, StronglySorted_filter.
    unfold rank in Hr. now apply list_sort_reverse_ok in Hr.
  - intros c I. apply in_slice_to in I. now apply filter_In in I.
Qed.

(** X21. A response is empty only when [max_results] is zero or negative: with
    no [max_results] or a positive one, an answer that is not an error
    recommends something. *)
Theorem empty_response_needs_nonpositive_max_results request g response g' :
  recommend_assessments net Vec encode cosine request g = (inr response, g') ->
  (recommendations response = [] ->
   exists k, max_results request = Some k /\ (k <= 0)%Z)
  /\ (max_results request = Some 0%Z -> recommendations response = []).
Proof.
  intros H. apply recommend_returns_inv in H.
  destruct H as [B [assessments [q [embs [ranked [_ [_ [_ [_ [N ->]]]]]]]]]].
  cbn [recommendations].
  destruct (filter_assessments (max_duration request) ranked) as [|a l];
    [congruence|].
  split.
  - unfold slice_to. destruct (max_results request) as [k|]; [|discriminate].
    intros E. exists k. split; [reflexivity|].
    destruct (Z.leb_spec 0 k) as [L|L]; [|lia].
    destruct (Z.to_nat k) eqn:K; [lia|discriminate].
  - intros ->. reflexivity.
Qed.

End HandlerResponses.

Lemma negative_max_duration_keeps_unknown_only_demo :
  In Demo.numerical
    (filter_assessments (Some (-5)%Z)
       [((9 # 10)%Q, Demo.java); ((1 # 2)%Q, Demo.numerical)])
  <-> exists sim,
      In (sim, Demo.numerical)
        [((9 # 10)%Q, Demo.java); ((1 # 2)%Q, Demo.numerical)]
      /\ (1 # 10 <= sim)%Q /\ digitless (duration Demo.numerical).
Proof.
  apply (negative_max_duration_keeps_unknown_only (-5)%Z
           [((9 # 10)%Q, Demo.java); ((1 # 2)%Q, Demo.numerical)]
           Demo.numerical).
  reflexivity.
Defined.

Lemma rank_returns_iff_demo :
  ties_agree (combine [(1 # 10)%Q; (9 # 10)%Q; (1 # 20)%Q] Demo.catalog)
  /\ TypeError no_lt_msg = TypeError no_lt_msg.
Proof.
  split.
  - apply (proj1 (proj1 (rank_returns_iff [(1 # 10)%Q; (9 # 10)%Q; (1 # 20)%Q]
                           Demo.catalog))).
    exists Demo.ranked. reflexivity.
  - apply (proj2 (rank_returns_iff [(1 # 2)%Q; (1 # 2)%Q]
                    [Demo.java; Demo.java_mirror])
             (TypeError no_lt_msg)).
    reflexivity.
Defined.

Lemma rank_stable_descending_demo :
  Permutation (combine [(1 # 10)%Q; (9 # 10)%Q; (1 # 20)%Q] Demo.catalog)
    Demo.ranked
  /\ StronglySorted by_score_desc Demo.ranked
  /\ forall q,
      scored q Demo.ranked
      = scored q (combine [(1 # 10)%Q; (9 # 10)%Q; (1 # 20)%Q] Demo.catalog).
Proof.
  apply (rank_stable_descending [(1 # 10)%Q; (9 # 10)%Q; (1 # 20)%Q]
           Demo.catalog Demo.ranked).
  reflexivity.
Defined.

Lemma recommendations_sound_demo :
  exists assessments q embs,
    scrape_shl_catalog (Demo.steady Demo.tags) 0 = (inr (Some assessments), 1)
    /\ process_query string Demo.encode "Java developer" = inr q
    /\ get_assessment_embeddings string Demo.encode assessments = inr embs
    /\ forall a,
        In a [Demo.style] ->
        In a assessments /\ valid_record a
        /\ exists sim,
            In (sim, a)
              (combine (cosine_similarity string Demo.cosine q embs)
                 assessments)
            /\ (1 # 10 <= sim)%Q
            /\ forall m d,
                Some 35%Z = Some m -> m <> 0%Z ->
                duration_value a = Some d -> (d <= m)%Z.
Proof.
  apply (recommendations_sound (Demo.steady Demo.tags) string Demo.encode
           Demo.cosine
           (mkQueryRequest "Java developer" (Some 10%Z) (Some 35%Z)) 0
           (mkResponse [Demo.style]) 1).
  reflexivity.
Defined.

Lemma response_is_prefix_demo :
  exists assessments q embs ranked picked rest,
    scrape_shl_catalog (Demo.steady Demo.tags) 0 = (inr (Some assessments), 1)
    /\ process_query string Demo.encode "Java developer" = inr q
    /\ get_assessment_embeddings string Demo.encode assessments = inr embs
    /\ rank (cosine_similarity string Demo.cosine q embs) assessments
       = inr ranked
    /\ filter_assessments None ranked = [Demo.java] ++ rest
    /\ Z.of_nat (List.length [Demo.java])
       = slice_length
           (Z.of_nat (List.length (filter_assessments None ranked)))
           (Some (-1)%Z)
    /\ [Demo.java] = map snd picked
    /\ StronglySorted by_score_desc picked
    /\ incl picked ranked.
Proof.
  apply (response_is_prefix (Demo.steady Demo.tags) string Demo.encode
           Demo.cosine
           (mkQueryRequest "Java developer" (Some (-1)%Z) None) 0
           (mkResponse [Demo.java]) 1).
  reflexivity.
Defined.

Lemma empty_response_needs_nonpositive_max_results_demo :
  (@nil Assessment = [] -> exists k, Some 0%Z = Some k /\ (k <= 0)%Z)
  /\ (Some 0%Z = Some 0%Z -> @nil Assessment = []).
Proof.
  apply (empty_response_needs_nonpositive_max_results
           (Demo.steady Demo.tags) string Demo.encode Demo.cosine
           (mkQueryRequest "Java developer" (Some 0%Z) None) 0
           (mkResponse []) 1).
  reflexivity.
Defined.

(** ** The form in front of the handler *)

Section Form.

Variable net : nat -> exn + Soup.
Variable Vec : Type.
Variable encode : list string -> exn + list Vec.
Variable cosine : Vec -> Vec -> Q.

Lemma blank_not_empty_truthy query :
  query <> "" -> PyStr.truthy query = true.
Proof. now destruct query. Qed.

(** X22. The form and the handler do not test the text alike: the form stops an
    empty query, but a query of white space only is posted, and comes back
    as the handler's 400. *)
Theorem blank_query_reaches_the_handler g query minutes :
  query <> "" -> blank query ->
  form net Vec encode cosine g query minutes
  = [st_error_response
       (mkHttpResponse 400 (Detail "Query text cannot be empty"))].
Proof.
  intros N B. unfold form, on_submit, endpoint.
  rewrite (blank_not_empty_truthy _ N).
  unfold recommend_assessments, recommend_body, try_except.
  cbn [text payload_text]. rewrite (strip_blank _ B). reflexivity.
Qed.

(** X23. In front of this handler the form never shows its warning that nothing
    matched: a 200 always carries at least one recommendation, and no
    failure has status 200. *)
Theorem form_never_warns_no_match g query minutes :
  ~ In (st_warning no_match_warning)
      (form net Vec encode cosine g query minutes).
Proof.
  unfold form, on_submit, endpoint.
  destruct (PyStr.truthy query).
  2: { intros [C|[]]. discriminate. }
  destruct (recommend_assessments net Vec encode cosine
              (mkQueryRequest (payload_text (mkPayload query minutes))
                 (Some 10%Z)
                 (Some (payload_max_duration (mkPayload query minutes))))
              g) as [[e|r] g'] eqn:H.
  - apply recommend_raises in H. destruct H as [status [detail [-> I]]].
    cbn [fst response_status response_body].
    unfold failure_statuses in I. simpl in I.
    destruct I as [<-|[<-|[<-|[<-|[]]]]]; simpl;
      intros [C|[]]; discriminate.
  - apply recommend_returns_inv in H.
    destruct H as [_ [a [q [embs [ranked [_ [_ [_ [_ [N ->]]]]]]]]]].
    cbn [fst response_status response_body recommendations max_results
           max_duration payload_text payload_max_duration
           get_recommendations Z.eqb Pos.eqb].
    cbn [max_duration payload_max_duration] in N.
    destruct (filter_assessments (Some minutes) ranked) as [|x l];
      [congruence|].
    simpl. intros [C|[C|[]]]; discriminate.
Qed.

(** X24. A table that the form shows holds the recommendations of the handler
    for the query, with the default of ten results: at least one row and
    at most ten. *)
Theorem form_table_rows g query minutes rows :
  In (st_dataframe rows) (form net Vec encode cosine g query minutes) ->
  (exists response g',
      recommend_assessments net Vec encode cosine
        (mkQueryRequest query (Some 10%Z) (Some minutes)) g
      = (inr response, g')
      /\ rows = recommendations response)
  /\ 1 <= List.length rows <= 10.
Proof.
  unfold form, on_submit, endpoint. cbn [payload_text payload_max_duration].
  destruct (PyStr.truthy query).
  2: { intros [C|[]]. discriminate. }
  destruct (recommend_assessments net Vec encode cosine
              (mkQueryRequest query (Some 10%Z) (Some minutes)) g)
    as [[e|r] g'] eqn:H.
  - apply recommend_raises in H. destruct H as [status [detail [-> I]]].
    cbn [fst response_status response_body].
    unfold failure_statuses in I. simpl in I.
    destruct I as [<-|[<-|[<-|[<-|[]]]]]; simpl;
      intros [C|[]]; discriminate.
  - pose proof H as H0. apply recommend_returns_inv in H.
    destruct H as [_ [a [q [embs [ranked [_ [_ [_ [_ [N E]]]]]]]]]].
    cbn [fst response_status response_body get_recommendations Z.eqb Pos.eqb].
    assert (L : 1 <= List.length (recommendations r) <= 10).
    { rewrite E. cbn [recommendations max_results max_duration].
      cbn [max_duration] in N.
      rewrite slice_to_positive by lia. rewrite length_firstn.
      destruct (filter_assessments (Some minutes) ranked);
        [congruence|]. simpl List.length. lia. }
    destruct (recommendations r) as [|x l] eqn:R; [simpl in L; lia|].
    intros [C|[C|[]]]; [discriminate|]. inversion C; subst rows.
    split; [|exact L]. exists r, g'. split; [reflexivity|]. now rewrite R.
Qed.

End Form.

Lemma blank_query_reaches_the_handler_demo :
  form Demo.down string Demo.encode Demo.cosine 0 "   " 60
  = [st_error_response
       (mkHttpResponse 400 (Detail "Query text cannot be empty"))].
Proof.
  apply (blank_query_reaches_the_handler Demo.down string Demo.encode
           Demo.cosine 0 "   " 60%Z).
  - discriminate.
  - repeat constructor.
Defined.

Lemma form_table_rows_demo :
  (exists response g',
      recommend_assessments (Demo.steady Demo.tags) string Demo.encode
        Demo.cosine
        (mkQueryRequest "Java developer" (Some 10%Z) (Some 60%Z)) 0
      = (inr response, g')
      /\ [Demo.java; Demo.style] = recommendations response)
  /\ 1 <= List.length [Demo.java; Demo.style] <= 10.
Proof.
  apply (form_table_rows (Demo.steady Demo.tags) string Demo.encode
           Demo.cosine 0 "Java developer" 60%Z [Demo.java; Demo.style]).
  right. left. reflexivity.
Defined.

(** ** How the two limits of a request act *)

(** X25. Raising a positive [max_duration] never removes a record from the
    filtered set, and no constraint at all keeps every record that some
    constraint keeps. *)
Theorem larger_max_duration_keeps_more m m' ranked a :
  (0 < m <= m')%Z ->
  In a (filter_assessments (Some m) ranked) ->
  In a (filter_assessments (Some m') ranked)
  /\ In a (filter_assessments None ranked).
Proof.
  intros M I. apply filter_assessments_in in I. destruct I as [sim [I K]].
  apply keep_true in K. destruct K as [L P].
  split; apply filter_assessments_in; exists sim; (split; [exact I|]);
    apply keep_true; (split; [exact L|]).
  - unfold passes_duration in *.
    rewrite duration_constraint_positive in * by lia.
    destruct (duration_value a) as [d|]; [|reflexivity].
    apply Z.leb_le in P. apply Z.leb_le. lia.
  - reflexivity.
Qed.

Section Limits.

Variable net : nat -> exn + Soup.
Variable Vec : Type.
Variable encode : list string -> exn + list Vec.
Variable cosine : Vec -> Vec -> Q.

(** X26. Asking for fewer results gives the head of the longer answer: for
    [0 <= k <= k'], the response to [max_results = k] is the first [k]
    entries of the response to [max_results = k'], all else being equal. *)
Theorem larger_max_results_extends txt limit k k' g response' g' :
  (0 <= k <= k')%Z ->
  recommend_assessments net Vec encode cosine
    (mkQueryRequest txt (Some k') limit) g = (inr response', g') ->
  recommend_assessments net Vec encode cosine
    (mkQueryRequest txt (Some k) limit) g
  = (inr (mkResponse (firstn (Z.to_nat k) (recommendations response'))), g').
Proof.
  intros K H. apply recommend_returns_inv in H.
  destruct H as [B [a [q [embs [ranked [Hs [Hq [He [Hr [N ->]]]]]]]]]].
  cbn [text max_duration max_results recommendations] in *.
  rewrite (recommend_ranked net Vec encode cosine
             (mkQueryRequest txt (Some k) limit) g g' a q embs B Hs Hq He).
  rewrite Hr. cbn [max_duration max_results].
  destruct (filter_assessments limit ranked) as [|x l] eqn:F; [congruence|].
  unfold slice_to.
  destruct (Z.leb_spec 0 k) as [_|C]; [|lia].
  destruct (Z.leb_spec 0 k') as [_|C]; [|lia].
  rewrite firstn_firstn, Nat.min_l by lia. reflexivity.
Qed.

End Limits.

Lemma larger_max_duration_keeps_more_demo :
  In Demo.style (filter_assessments (Some 45%Z) Demo.ranked)
  /\ In Demo.style (filter_assessments None Demo.ranked).
Proof.
  apply (larger_max_duration_keeps_more 35 45 Demo.ranked Demo.style).
  - lia.
  - left. reflexivity.
Defined.

Lemma larger_max_results_extends_demo :
  recommend_assessments (Demo.steady Demo.tags) string Demo.encode
    Demo.cosine (mkQueryRequest "Java developer" (Some 1%Z) None) 0
  = (inr (mkResponse (firstn (Z.to_nat 1) [Demo.java; Demo.style])), 1).
Proof.
  apply (larger_max_results_extends (Demo.steady Demo.tags) string
           Demo.encode Demo.cosine "Java developer" None 1 10 0
           (mkResponse [Demo.java; Demo.style]) 1).
  - lia.
  - reflexivity.
Defined.

Lemma section_kept_iff_demo :
  exists a, extract_section Demo.java_tag = Some a.
Proof.
  apply (proj2 (section_kept_iff Demo.java_tag)). split.
  - exists "  Java Programming Skills Test ". split; [reflexivity|].
    intros C. inversion C as [|? ? Hc Hr]. inversion Hr as [|? ? Hc' Hr'].
    inversion Hr' as [|? ? Hj _]. discriminate Hj.
  - exists "/products/java". reflexivity.
Defined.

Lemma find_assessment_sections_cascade_demo :
  (Demo.tags <> []
   /\ (Demo.tags = find_all_pattern (Demo.page Demo.tags) 0
       \/ (find_all_pattern (Demo.page Demo.tags) 0 = []
           /\ Demo.tags = find_all_pattern (Demo.page Demo.tags) 1)
       \/ (find_all_pattern (Demo.page Demo.tags) 0 = []
           /\ find_all_pattern (Demo.page Demo.tags) 1 = []
           /\ Demo.tags = find_all_pattern (Demo.page Demo.tags) 2)
       \/ (find_all_pattern (Demo.page Demo.tags) 0 = []
           /\ find_all_pattern (Demo.page Demo.tags) 1 = []
           /\ find_all_pattern (Demo.page Demo.tags) 2 = []
           /\ Demo.tags = find_all_general (Demo.page Demo.tags))))
  /\ find_assessment_sections Demo.bare_page
     = inl (ValueError "No assessment sections found on the page. The page structure might have changed.").
Proof.
  split.
  - apply (proj1 (find_assessment_sections_cascade (Demo.page Demo.tags))
             Demo.tags).
    reflexivity.
  - apply (proj2 (find_assessment_sections_cascade Demo.bare_page)
             (ValueError "No assessment sections found on the page. The page structure might have changed.")).
    repeat split.
Defined.
